(** * micro-server: listener factory, handler composition, server lifecycle
      and signal-driven cancellation.

    A shallow embedding of
      - pkg/server/advanced/server (NewServer, NewListener, parseListener,
        ConfigureHandler, RunServer),
      - pkg/server (Options, setOptionsDefaults, NewBaseServer, Run, Shutdown),
      - pkg/helpers/context (WithCancelOnSignal).

    Calls into net, net/http, winio, mux and the logger are effects: each one
    appends an event to a chronological trace, and what the outside world
    answers is read from an environment of oracles that may depend on the
    whole history so far. *)

From Stdlib Require Import ZArith List String Ascii Bool Lia.
Import ListNotations.

Local Open Scope string_scope.
Local Open Scope list_scope.

(** ** Go values shared by the packages *)

(** A Go [error] value.  [http.ErrServerClosed] is a sentinel compared by
    identity ([err == http.ErrServerClosed]); [fmt.Errorf] and the errors of the
    standard library are distinct values carrying a message. *)
Inductive error : Type :=
| ErrServerClosed
| Errorf (msg : string).

(** [time.Duration]: a count of nanoseconds (an int64 in Go; the code below
    only compares durations and builds the constants 5s and 10s). *)
Definition Duration := Z.
Definition Second : Duration := 1000000000%Z.

(** [net.Listener]: an open listening socket, known by its bound address. *)
Record Listener : Type := mkListener { lnAddr : string }.

(** ** HTTP requests and handlers *)

Record Request : Type := mkRequest {
  Method : string;
  Header : list (string * string);
  Form   : list (string * string)
}.

Inductive Layer : Type := LCors | LMethodOverride.

(** What a handler does with one request, in order. *)
Inductive HEvent : Type :=
| Inspect (by_layer : Layer) (r : Request)
| SetHeader (key value : string)
| WriteHeader (status : Z)
| Served (r : Request).

Definition Handler := Request -> list HEvent.

(** [http.Server] as [NewServer] fills it. *)
Record HttpServer : Type := mkHttpServer {
  Addr         : string;
  SrvHandler   : Handler;
  ReadTimeout  : Duration;
  WriteTimeout : Duration
}.

(** ** Effects *)

Inductive Event : Type :=
| EvListenPipe (path : string)
| EvListenTCP (addr : string)
| EvLogInfo (msg : string) (methods : option (list string))
| EvLogError (err : error) (msg : string)
| EvServerShutdown (deadline : option Duration)
| EvServerClose
| EvListenerClose (l : Listener)
| EvServe (l : Listener).

Definition Trace := list Event.

(** The answers of the outside world.  Every oracle sees the history. *)
Record Env : Type := mkEnv {
  ListenPipe     : string -> Trace -> Listener + error;
  Listen_tcp     : string -> Trace -> Listener + error;
  ServerShutdown : Trace -> option error;
  ServerClose    : Trace -> option error;
  ListenerClose  : Listener -> Trace -> option error;
  Serve          : Listener -> Trace -> option error;
  EndpointToHostname : string -> string
}.

(** A computation reads the history and extends it. *)
Definition M (A : Type) : Type := Trace -> A * Trace.

Definition ret {A} (a : A) : M A := fun t => (a, t).
Definition bind {A B} (m : M A) (k : A -> M B) : M B :=
  fun t => let (a, t') := m t in k a t'.
Definition emit (e : Event) : M unit := fun t => (tt, t ++ [e]).
Definition history : M Trace := fun t => (t, t).

Declare Scope go_scope.
Delimit Scope go_scope with go.
Notation "x <- c1 ;; c2" := (bind c1 (fun x => c2))
  (at level 100, c1 at next level, right associativity) : go_scope.
Notation "c1 ;;; c2" := (bind c1 (fun _ => c2))
  (at level 100, right associativity) : go_scope.

(** An external call: record it, then take the world's answer for the history
    that includes the call. *)
Definition call {A} (e : Event) (answer : Trace -> A) : M A :=
  (emit e ;;; h <- history ;; ret (answer h))%go.

(** ** Package server: options *)

Module Options.

Definition defaultGracefulTimeout : Duration := (Second * 5)%Z.

Record Options : Type := mkOptions {
  EnableProfiling   : bool;
  EnableTracing     : bool;
  GracefulTimeout   : Duration;
  EnableReplication : bool
}.

(** The argument is a pointer: [None] is the nil pointer, and the result is
    the pointee after the call. *)
Definition setOptionsDefaults (options : option Options) : option Options :=
  match options with
  | Some o =>
      if (GracefulTimeout o =? 0)%Z
      then Some (mkOptions (EnableProfiling o) (EnableTracing o)
                           defaultGracefulTimeout (EnableReplication o))
      else Some o
  | None => None
  end.

End Options.

(** ** github.com/gorilla/handlers v1.5.1 (the version go.mod pins)

    The two middlewares [ConfigureHandler] stacks.  Each one looks at the
    request as its first action ([Inspect]) and then either answers or calls the
    handler it wraps. *)

Module Handlers.

Definition header_get (k : string) (hs : list (string * string)) : string :=
  match find (fun kv => String.eqb (fst kv) k) hs with
  | Some kv => snd kv
  | None => ""
  end.

Definition header_has (k : string) (hs : list (string * string)) : bool :=
  existsb (fun kv => String.eqb (fst kv) k) hs.

Definition isMatch (needle : string) (haystack : list string) : bool :=
  existsb (String.eqb needle) haystack.

(** *** HTTPMethodOverrideHandler *)

Definition HTTPMethodOverrideHeader := "X-HTTP-Method-Override".
Definition HTTPMethodOverrideFormKey := "_method".

Definition withMethod (r : Request) (m : string) : Request :=
  mkRequest m (Header r) (Form r).

(** The request the wrapped handler receives. *)
Definition overrideMethod (r : Request) : Request :=
  if String.eqb (Method r) "POST" then
    let om := header_get HTTPMethodOverrideFormKey (Form r) in
    let om := if String.eqb om "" then header_get HTTPMethodOverrideHeader (Header r)
              else om in
    if String.eqb om "PUT" || String.eqb om "PATCH" || String.eqb om "DELETE"
    then withMethod r om
    else r
  else r.

Definition HTTPMethodOverrideHandler (h : Handler) : Handler :=
  fun r => Inspect LMethodOverride r :: h (overrideMethod r).

(** *** CORS *)

Inductive CORSOption : Type :=
| AllowedOrigins (origins : list string)
| AllowedMethods (methods : list string)
| AllowCredentials.

Record cors : Type := mkCors {
  allowedMethods   : list string;
  allowedOrigins   : list string;
  allowCredentials : bool
}.

Definition defaultCorsMethods := ["GET"; "HEAD"; "POST"].
Definition corsOriginMatchAll := "*".

Definition applyOption (ch : cors) (o : CORSOption) : cors :=
  match o with
  | AllowedOrigins origins =>
      if isMatch corsOriginMatchAll origins
      then mkCors (allowedMethods ch) [corsOriginMatchAll] (allowCredentials ch)
      else mkCors (allowedMethods ch) origins (allowCredentials ch)
  | AllowedMethods methods =>
      mkCors (fold_left (fun acc v => if isMatch v acc then acc else acc ++ [v]) methods [])
             (allowedOrigins ch) (allowCredentials ch)
  | AllowCredentials =>
      mkCors (allowedMethods ch) (allowedOrigins ch) true
  end.

Definition parseCORSOptions (opts : list CORSOption) : cors :=
  fold_left applyOption opts (mkCors defaultCorsMethods [] false).

Definition isOriginAllowed (ch : cors) (origin : string) : bool :=
  if String.eqb origin "" then false
  else match allowedOrigins ch with
       | [] => true
       | os => isMatch corsOriginMatchAll os || isMatch origin os
       end.

Definition returnOrigin (ch : cors) (origin : string) : string :=
  match allowedOrigins ch with
  | [] => "*"
  | os => if isMatch corsOriginMatchAll os then "*" else origin
  end.

(** Headers set on every response to an allowed origin. *)
Definition corsHeaders (ch : cors) (origin : string) : list HEvent :=
  (if allowCredentials ch
   then [SetHeader "Access-Control-Allow-Credentials" "true"] else [])
  ++ (if (1 <? List.length (allowedOrigins ch))%nat then [SetHeader "Vary" "Origin"] else [])
  ++ [SetHeader "Access-Control-Allow-Origin" (returnOrigin ch origin)].

(** What the layer does once it has looked at the request.  A preflight
    (OPTIONS from an allowed origin) is answered here and never reaches the
    wrapped handler.  The filtering of Access-Control-Request-Headers is left
    out: it only adds a 403 answer to the preflight branch. *)
Definition corsServe (ch : cors) (h : Handler) (r : Request) : list HEvent :=
  let origin := header_get "Origin" (Header r) in
  if negb (isOriginAllowed ch origin) then
    if negb (String.eqb (Method r) "OPTIONS") then h r else []
  else if String.eqb (Method r) "OPTIONS" then
    if negb (header_has "Access-Control-Request-Method" (Header r))
    then [WriteHeader 400]
    else
      let method := header_get "Access-Control-Request-Method" (Header r) in
      if negb (isMatch method (allowedMethods ch)) then [WriteHeader 405]
      else
        (if negb (isMatch method defaultCorsMethods)
         then [SetHeader "Access-Control-Allow-Methods" method] else [])
        ++ corsHeaders ch origin ++ [WriteHeader 200]
  else corsHeaders ch origin ++ h r.

Definition CORS (opts : list CORSOption) (h : Handler) : Handler :=
  fun r => Inspect LCors r :: corsServe (parseCORSOptions opts) h r.

End Handlers.

(** ** github.com/gorilla/mux v1.8.0: routes and [Router.Walk] *)

Module Mux.

(** A route: its path template and methods when it has them, whether a
    handler is attached, and the routes of its subrouter. *)
#[warnings="-register-all"]
Inductive Route : Type :=
| mkRoute (pathTemplate : option string) (methods : option (list string))
          (hasHandler : bool) (subroutes : list Route).

Record Router : Type := mkRouter {
  routes    : list Route;
  ServeHTTP : Handler
}.

Definition NewRouter : Router :=
  mkRouter [] (fun _ => [WriteHeader 404]).

Definition GetPathTemplate (r : Route) : string + error :=
  match r with
  | mkRoute (Some t) _ _ _ => inl t
  | mkRoute None _ _ _ => inr (Errorf "mux: route doesn't have a path")
  end.

Definition GetMethods (r : Route) : list string + error :=
  match r with
  | mkRoute _ (Some m) _ _ => inl m
  | mkRoute _ None _ _ => inr (Errorf "mux: route doesn't have methods")
  end.

Definition GetHandler (r : Route) : bool :=
  match r with mkRoute _ _ h _ => h end.

(** Pre-order traversal that stops at the first error the callback
    returns. *)
Fixpoint walkRoute (walkFn : Route -> M (option error)) (r : Route) : M (option error) :=
  (err <- walkFn r ;;
   match err with
   | Some e => ret (Some e)
   | None =>
       match r with
       | mkRoute _ _ _ subs =>
           (fix walkList (l : list Route) : M (option error) :=
              match l with
              | [] => ret None
              | x :: xs =>
                  err <- walkRoute walkFn x ;;
                  match err with
                  | Some e => ret (Some e)
                  | None => walkList xs
                  end
              end) subs
       end
   end)%go.

Fixpoint walkRoutes (walkFn : Route -> M (option error)) (l : list Route) : M (option error) :=
  match l with
  | [] => ret None
  | x :: xs =>
      (err <- walkRoute walkFn x ;;
       match err with
       | Some e => ret (Some e)
       | None => walkRoutes walkFn xs
       end)%go
  end.

Definition Walk (r : Router) (walkFn : Route -> M (option error)) : M (option error) :=
  walkRoutes walkFn (routes r).

(** A route that has a path template, and so have all routes below it. *)
Fixpoint templated (r : Route) : bool :=
  match r with
  | mkRoute (Some _) _ _ subs => forallb templated subs
  | mkRoute None _ _ _ => false
  end.

Section RouteInduction.
Variable P : Route -> Prop.
Hypothesis step :
  forall tpl m h subs, Forall P subs -> P (mkRoute tpl m h subs).

Fixpoint Route_nested_ind (r : Route) : P r :=
  match r with
  | mkRoute tpl m h subs =>
      step tpl m h subs
        ((fix all (l : list Route) : Forall P l :=
            match l with
            | [] => Forall_nil P
            | x :: xs => Forall_cons x (Route_nested_ind x) (all xs)
            end) subs)
  end.
End RouteInduction.

End Mux.

(** ** pkg/server/advanced/server *)

Module AdvServer.

Import Handlers.

(** [context.Context] as the serve loop's waiter sees it: whether the context
    is cancelled while the loop runs, given the history. *)
Definition Context := Trace -> bool.

Definition CORSOptions : list CORSOption :=
  [ AllowedOrigins ["*"];
    AllowedMethods ["GET"; "PUT"; "POST"; "DELETE"; "OPTIONS"; "HEAD"; "PATCH"];
    AllowCredentials ].

Definition ConfigureHandler (handler : Handler) : Handler :=
  let handler := CORS CORSOptions handler in
  let handler := HTTPMethodOverrideHandler handler in
  handler.

Definition NewServer (handler : Handler) (listener : Listener) : HttpServer :=
  {| Addr := lnAddr listener;
     SrvHandler := ConfigureHandler handler;
     ReadTimeout := (Second * 10)%Z;
     WriteTimeout := (Second * 10)%Z |}.

Definition parseListener (env : Env) (endpoint : string) : M (Listener + error) :=
  if String.prefix "\\" endpoint
  then call (EvListenPipe endpoint) (ListenPipe env endpoint)
  else call (EvListenTCP endpoint) (Listen_tcp env endpoint).

Definition NewListener (env : Env) (endpoint : string) : M (Listener + error) :=
  parseListener env endpoint.

(** The goroutine [RunServer] starts: once the context is done it shuts the
    server down within [gracefulTimeout] and closes it, dropping both
    results. *)
Definition waiter (env : Env) (gracefulTimeout : Duration) : M unit :=
  (_ <- call (EvServerShutdown (Some gracefulTimeout)) (ServerShutdown env) ;;
   _ <- call EvServerClose (ServerClose env) ;;
   ret tt)%go.

(** [Serve] blocks; the waiter, when the context is cancelled meanwhile, runs
    before [Serve] returns. *)
Definition RunServer (env : Env) (ctx : Context) (httpServer : HttpServer)
           (listener : Listener) (gracefulTimeout : Duration) : M (option error) :=
  (emit (EvServe listener) ;;;
   h <- history ;;
   (if ctx h then waiter env gracefulTimeout else ret tt) ;;;
   h <- history ;;
   let err := Serve env listener h in
   ret (match err with
        | Some ErrServerClosed => None
        | _ => err
        end))%go.

End AdvServer.

(** ** pkg/server/server.go *)

Module Server.

Import Options.

(** The [logger] field is left out: logging is the [EvLogInfo] and
    [EvLogError] effects. *)
Record httpServer : Type := mkHttpSrv {
  endpoint        : string;
  gracefulTimeout : Duration;
  router          : Mux.Router;
  listener        : option Listener;
  serverURL       : string;
  runningServer   : option HttpServer
}.

Definition set_listener (s : httpServer) (l : option Listener) : httpServer :=
  mkHttpSrv (endpoint s) (gracefulTimeout s) (router s) l (serverURL s) (runningServer s).

Definition set_runningServer (s : httpServer) (r : option HttpServer) : httpServer :=
  mkHttpSrv (endpoint s) (gracefulTimeout s) (router s) (listener s) (serverURL s) r.

Definition parseListener (env : Env) (endpoint : string) : M (Listener + error) :=
  if String.prefix "\\" endpoint
  then call (EvListenPipe endpoint) (ListenPipe env endpoint)
  else call (EvListenTCP endpoint) (Listen_tcp env endpoint).

Definition NewBaseServer (env : Env) (endpoint : string) (options : Options)
  : M (httpServer + error) :=
  let options := match setOptionsDefaults (Some options) with
                 | Some o => o
                 | None => options
                 end in
  (r <- AdvServer.NewListener env endpoint ;;
   match r with
   | inr err => ret (inr err)
   | inl listener =>
       ret (inl {| endpoint := endpoint;
                   gracefulTimeout := GracefulTimeout options;
                   router := Mux.NewRouter;
                   listener := Some listener;
                   serverURL := "http://" ++ EndpointToHostname env (lnAddr listener);
                   runningServer := None |})
   end)%go.

Definition Router (s : httpServer) : Mux.Router := router s.
Definition GetServerURL (s : httpServer) : string := serverURL s.

(** Shutdown closes all server used resources.  The result is the returned
    error and the receiver after the call. *)
Definition Shutdown (env : Env) (s : httpServer) : M (option error * httpServer) :=
  (r <- match runningServer s with
        | Some _ =>
            err <- call (EvServerShutdown None) (ServerShutdown env) ;;
            match err with
            | Some e =>
                emit (EvLogError e "error during server shutdown") ;;;
                ret (Some e, s)
            | None =>
                err <- call EvServerClose (ServerClose env) ;;
                match err with
                | Some e =>
                    emit (EvLogError e "error during server close") ;;;
                    ret (Some e, s)
                | None =>
                    ret (None, set_runningServer (set_listener s None) None)
                end
            end
        | None => ret (None, s)
        end ;;
   match r with
   | (Some e, s) => ret (Some e, s)
   | (None, s) =>
       match listener s with
       | Some l =>
           err <- call (EvListenerClose l) (ListenerClose env l) ;;
           match err with
           | Some e =>
               emit (EvLogError e "error during listener close") ;;;
               ret (Some e, s)
           | None => ret (None, set_listener s None)
           end
       | None => ret (None, s)
       end
   end)%go.

(** The callback [Run] hands to [Router.Walk]: one log line per route.
    [route.Handler(route.GetHandler())] puts back the handler it read, so the
    router is unchanged. *)
Definition logRoute (s : httpServer) (route : Mux.Route) : M (option error) :=
  match Mux.GetPathTemplate route with
  | inr err => ret (Some err)
  | inl t =>
      let m := match Mux.GetMethods route with
               | inl m => Some m
               | inr _ => None
               end in
      (emit (EvLogInfo ("Exposed Route: `" ++ GetServerURL s ++ t ++ "`") m) ;;;
       ret None)%go
  end.

(** The log lines a walk over templated routes leaves, in walk order. *)
Fixpoint exposedRoute (s : httpServer) (r : Mux.Route) : list Event :=
  match r with
  | Mux.mkRoute (Some t) m _ subs =>
      EvLogInfo ("Exposed Route: `" ++ GetServerURL s ++ t ++ "`") m
      :: flat_map (exposedRoute s) subs
  | Mux.mkRoute None _ _ _ => []
  end.

Definition exposed (s : httpServer) (l : list Mux.Route) : list Event :=
  flat_map (exposedRoute s) l.

(** The receiver once [Run] has passed its two checks and stored the new
    [http.Server]: the state a concurrent caller finds while the serve loop
    runs. *)
Definition serving (s : httpServer) (l : Listener) : httpServer :=
  set_runningServer s (Some (AdvServer.NewServer (Mux.ServeHTTP (router s)) l)).

(** Run launches the http server.  The deferred calls run last registered
    first: the "Stopped" log line, then [Shutdown], whose result is dropped. *)
Definition Run (env : Env) (ctx : AdvServer.Context) (s : httpServer)
  : M (option error * httpServer) :=
  match listener s with
  | None => ret (Some (Errorf "listener not initialised"), s)
  | Some l =>
      match runningServer s with
      | Some _ => ret (Some (Errorf "server already running"), s)
      | None =>
          let srv := AdvServer.NewServer (Mux.ServeHTTP (router s)) l in
          let s := serving s l in
          (emit (EvLogInfo "Starting the HTTP server" None) ;;;
           _ <- Mux.Walk (router s) (logRoute s) ;;
           err <- AdvServer.RunServer env ctx srv l (gracefulTimeout s) ;;
           match err with
           | Some e => emit (EvLogError e "Failed to run the HTTP server")
           | None => ret tt
           end ;;;
           emit (EvLogInfo "Stopped the HTTP server" None) ;;;
           r <- Shutdown env s ;;
           ret (err, snd r))%go
      end
  end.

End Server.

(** ** pkg/helpers/context/context.go

    [WithCancelOnSignal] sets up a channel, a goroutine that cancels the child
    context after one receive, and a release closure guarded by a [sync.Once].
    The pieces run concurrently; the model is a transition system whose atomic
    steps are a signal delivery by the runtime, a step of the goroutine, the
    cancellation of the parent context, and a call of the release closure.  A
    release call that finds the context not yet done stays blocked and is
    counted in [waiting] until the context is done. *)

Module SignalContext.

Definition Signal := nat.

(** Where the goroutine [go func() { <-ch; cancel() }()] stands. *)
Inductive Goroutine : Type :=
| Spawned      (* not yet scheduled *)
| Receiving    (* parked in [<-ch] *)
| Cancelling   (* received, about to call [cancel()] *)
| Finished.

Inductive SEvent : Type :=
| SigNotify
| SigReset (call : nat)
| ChClose (call : nat)
| Cancel.

Record State : Type := mkState {
  signals  : list Signal;   (* the signals asked for; the channel's capacity is their number *)
  notified : bool;          (* [signal.Notify(ch, signals...)] is in force *)
  buf      : list Signal;   (* what the channel buffers *)
  closed   : bool;          (* [close(ch)] has run *)
  once     : bool;          (* the [sync.Once] has fired *)
  done     : bool;          (* the child context is done *)
  watcher  : Goroutine;
  panicked : bool;
  calls    : nat;           (* release calls started so far *)
  waiting  : nat;           (* release calls parked in [<-ctx.Done()] *)
  returned : nat;           (* release calls that returned *)
  log      : list SEvent
}.

(** The state right after [WithCancelOnSignal(ctx, signals...)] returns.
    [parentDone] tells whether the parent context was already cancelled. *)
Definition WithCancelOnSignal (parentDone : bool) (sigs : list Signal) : State :=
  {| signals := sigs; notified := true; buf := []; closed := false;
     once := false; done := parentDone; watcher := Spawned; panicked := false;
     calls := 0; waiting := 0; returned := 0; log := [SigNotify] |}.

(** [WithCancelOnTermination]: the same for [os.Interrupt] and
    [syscall.SIGTERM]. *)
Definition Interrupt : Signal := 2.
Definition SIGTERM : Signal := 15.

Definition WithCancelOnTermination (parentDone : bool) : State :=
  WithCancelOnSignal parentDone [Interrupt; SIGTERM].

(** [signal.Notify] with no signal relays all of them. *)
Definition wants (st : State) (sig : Signal) : bool :=
  match signals st with
  | [] => true
  | l => existsb (Nat.eqb sig) l
  end.

(** The runtime's non-blocking send [select { case ch <- sig: default: }]. *)
Definition deliver (sig : Signal) (st : State) : State :=
  if notified st && wants st sig then
    if closed st then
      mkState (signals st) (notified st) (buf st) (closed st) (once st) (done st)
              (watcher st) true (calls st) (waiting st) (returned st) (log st)
    else if (List.length (buf st) <? List.length (signals st))%nat then
      mkState (signals st) (notified st) (buf st ++ [sig]) (closed st) (once st) (done st)
              (watcher st) (panicked st) (calls st) (waiting st) (returned st) (log st)
    else
      match watcher st, buf st with
      | Receiving, [] =>
          mkState (signals st) (notified st) (buf st) (closed st) (once st) (done st)
                  Cancelling (panicked st) (calls st) (waiting st) (returned st) (log st)
      | _, _ => st
      end
  else st.

Definition set_watcher (st : State) (b : list Signal) (g : Goroutine) : State :=
  mkState (signals st) (notified st) b (closed st) (once st) (done st)
          g (panicked st) (calls st) (waiting st) (returned st) (log st).

(** One step of the goroutine: [<-ch] takes a buffered signal, or the zero
    value of a closed channel, or parks; then [cancel()]. *)
Definition watcher_step (st : State) : State :=
  match watcher st with
  | Spawned | Receiving =>
      match buf st with
      | _ :: rest => set_watcher st rest Cancelling
      | [] => if closed st then set_watcher st [] Cancelling
              else set_watcher st [] Receiving
      end
  | Cancelling =>
      mkState (signals st) (notified st) (buf st) (closed st) (once st) true
              Finished (panicked st) (calls st) (waiting st) (returned st)
              (log st ++ [Cancel])
  | Finished => st
  end.

Definition parent_cancel (st : State) : State :=
  mkState (signals st) (notified st) (buf st) (closed st) (once st) true
          (watcher st) (panicked st) (calls st) (waiting st) (returned st) (log st).

(** The body handed to [once.Do]: [signal.Reset(signals...)] then
    [close(ch)].  Closing a closed channel panics. *)
Definition reset_signals (k : nat) (st : State) : State :=
  mkState (signals st) false (buf st) (closed st) (once st) (done st)
          (watcher st) (panicked st) (calls st) (waiting st) (returned st)
          (log st ++ [SigReset k]).

Definition close_ch (k : nat) (st : State) : State :=
  mkState (signals st) (notified st) (buf st) true (once st) (done st)
          (watcher st) (panicked st || closed st) (calls st) (waiting st) (returned st)
          (log st ++ [ChClose k]).

Definition once_Do (f : State -> State) (st : State) : State :=
  if once st then st
  else let st := f st in
       mkState (signals st) (notified st) (buf st) (closed st) true (done st)
               (watcher st) (panicked st) (calls st) (waiting st) (returned st) (log st).

(** A call of the release closure, numbered from 0: the once-guarded body,
    then the caller parks in [<-ctx.Done()]. *)
Definition release (st : State) : State :=
  let k := calls st in
  let st := once_Do (fun st => close_ch k (reset_signals k st)) st in
  mkState (signals st) (notified st) (buf st) (closed st) (once st) (done st)
          (watcher st) (panicked st) (S (calls st)) (S (waiting st)) (returned st) (log st).

(** Every caller parked in [<-ctx.Done()] returns once the context is done. *)
Definition wake (st : State) : State :=
  if done st then
    mkState (signals st) (notified st) (buf st) (closed st) (once st) (done st)
            (watcher st) (panicked st) (calls st) 0 (returned st + waiting st) (log st)
  else st.

Inductive Op : Type :=
| Deliver (sig : Signal)
| WatcherStep
| ParentCancel
| Release.

Definition step (o : Op) (st : State) : State :=
  wake match o with
       | Deliver sig => deliver sig st
       | WatcherStep => watcher_step st
       | ParentCancel => parent_cancel st
       | Release => release st
       end.

Definition run (ops : list Op) (st : State) : State :=
  fold_left (fun st o => step o st) ops st.

Definition is_close (e : SEvent) : bool :=
  match e with ChClose _ => true | _ => false end.
Definition is_reset (e : SEvent) : bool :=
  match e with SigReset _ => true | _ => false end.
Definition is_watcher_step (o : Op) : bool :=
  match o with WatcherStep => true | _ => false end.
Definition is_release (o : Op) : bool :=
  match o with Release => true | _ => false end.

Definition count {A} (p : A -> bool) (l : list A) : nat :=
  List.length (filter p l).

(** What holds between the atomic steps, before parked callers are woken. *)
Record Pre (st : State) : Prop := mkPre {
  pre_panicked : panicked st = false;
  pre_closed   : closed st = once st;
  pre_notified : once st = true -> notified st = false;
  pre_once     : once st = (0 <? calls st)%nat;
  pre_closes   : count is_close (log st) = if once st then 1 else 0;
  pre_resets   : count is_reset (log st) = if once st then 1 else 0;
  pre_first    : forall k, In (ChClose k) (log st) \/ In (SigReset k) (log st) -> k = 0;
  pre_calls    : calls st = waiting st + returned st;
  pre_returned : done st = false -> returned st = 0;
  pre_finished : watcher st = Finished -> done st = true
}.

(** What holds in every reachable state: no caller stays parked once the
    context is done. *)
Definition Inv (st : State) : Prop :=
  Pre st /\ (done st = true -> waiting st = 0).

(** How many steps of the goroutine the context is away from done, once the
    channel is closed. *)
Definition need (st : State) : nat :=
  if done st then 0
  else match watcher st with
       | Spawned | Receiving => 2
       | Cancelling => 1
       | Finished => 0
       end.

End SignalContext.

(** ** Concrete worlds and inputs used by the examples *)

Module Samples.

Import Options Server.

(** Every external call succeeds; the serve loop ends by being closed. *)
Definition calmEnv : Env :=
  {| ListenPipe := fun p _ => inl (mkListener p);
     Listen_tcp := fun a _ => inl (mkListener a);
     ServerShutdown := fun _ => None;
     ServerClose := fun _ => None;
     ListenerClose := fun _ _ => None;
     Serve := fun _ _ => Some ErrServerClosed;
     EndpointToHostname := fun a => ("localhost" ++ a)%string |}.

Definition errShutdown : error := Errorf "close tcp: use of closed network connection".
Definition errAccept : error := Errorf "accept tcp: too many open files".

(** [http.Server.Shutdown] fails. *)
Definition shutdownFailsEnv : Env :=
  {| ListenPipe := ListenPipe calmEnv;
     Listen_tcp := Listen_tcp calmEnv;
     ServerShutdown := fun _ => Some errShutdown;
     ServerClose := fun _ => None;
     ListenerClose := fun _ _ => None;
     Serve := fun _ _ => Some ErrServerClosed;
     EndpointToHostname := EndpointToHostname calmEnv |}.

(** [http.Server.Close] fails after a clean [Shutdown]. *)
Definition closeFailsEnv : Env :=
  {| ListenPipe := ListenPipe calmEnv;
     Listen_tcp := Listen_tcp calmEnv;
     ServerShutdown := fun _ => None;
     ServerClose := fun _ => Some errShutdown;
     ListenerClose := fun _ _ => None;
     Serve := fun _ _ => Some ErrServerClosed;
     EndpointToHostname := EndpointToHostname calmEnv |}.

(** The serve loop breaks on an accept error. *)
Definition acceptFailsEnv : Env :=
  {| ListenPipe := ListenPipe calmEnv;
     Listen_tcp := Listen_tcp calmEnv;
     ServerShutdown := fun _ => None;
     ServerClose := fun _ => None;
     ListenerClose := fun _ _ => None;
     Serve := fun _ _ => Some errAccept;
     EndpointToHostname := EndpointToHostname calmEnv |}.

Definition neverDone : AdvServer.Context := fun _ => false.
Definition cancelled : AdvServer.Context := fun _ => true.

Definition ln8080 : Listener := mkListener ":8080".

(** What [NewBaseServer(":8080", Options{})] builds in [calmEnv]. *)
Definition fresh : httpServer :=
  {| endpoint := ":8080";
     gracefulTimeout := defaultGracefulTimeout;
     router := Mux.NewRouter;
     listener := Some ln8080;
     serverURL := "http://localhost:8080";
     runningServer := None |}.

Definition negativeTimeout : Options := mkOptions false false (-1)%Z false.

(** A router whose second route was registered without a path. *)
Definition pathlessRouter : Mux.Router :=
  {| Mux.routes :=
       [ Mux.mkRoute (Some "/healthz/liveness") (Some ["GET"]) true [];
         Mux.mkRoute None (Some ["GET"]) true [];
         Mux.mkRoute (Some "/metrics") (Some ["GET"]) true [] ];
     Mux.ServeHTTP := fun r => [Served r] |}.

Definition pathless : httpServer :=
  {| endpoint := ":8080";
     gracefulTimeout := defaultGracefulTimeout;
     router := pathlessRouter;
     listener := Some ln8080;
     serverURL := "http://localhost:8080";
     runningServer := None |}.

Definition echo : Handler := fun r => [Served r].

(** A POST that asks to be treated as DELETE. *)
Definition postAsDelete : Request :=
  {| Method := "POST";
     Header := [("Origin", "https://app.example"); ("X-HTTP-Method-Override", "DELETE")];
     Form := [] |}.

(** A CORS preflight. *)
Definition preflight : Request :=
  {| Method := "OPTIONS";
     Header := [("Origin", "https://app.example");
                ("Access-Control-Request-Method", "PUT")];
     Form := [] |}.

End Samples.

(** The layer that looks at a request first. *)
Definition first_inspector (tr : list HEvent) : option Layer :=
  match find (fun e => match e with Inspect _ _ => true | _ => false end) tr with
  | Some (Inspect l _) => Some l
  | _ => None
  end.

(** ** pkg/helpers/production

    The package-level flag [inProduction] is passed in and out explicitly.
    [os.Hostname], [net.SplitHostPort] and [net.ParseIP] are answers of the
    platform. *)

Module Production.

(** [net.IP] as the code uses it. *)
Record IP : Type := mkIP {
  IsUnspecified : bool;
  ip_String     : string
}.

Record Net : Type := mkNet {
  os_Hostname   : string + error;
  SplitHostPort : string -> (string * string) + error;
  ParseIP       : string -> option IP
}.

Definition InProduction (inProduction : bool) : bool := inProduction.

(** The flag after the call, and the returned closure, which writes the
    captured previous value whatever the flag holds when it is called. *)
Definition SetInProduction (v : bool) (inProduction : bool) : bool * (bool -> bool) :=
  let previous := inProduction in
  (v, fun _ => previous).

Definition Hostname (net : Net) : string :=
  match os_Hostname net with
  | inl hostname => hostname
  | inr _ => "localhost"
  end.

Definition EndpointToHostname (net : Net) (endpoint : string) (useLocal : bool) : string :=
  let defaultHost := if negb useLocal then Hostname net else "localhost" in
  match SplitHostPort net endpoint with
  | inl (host, port) =>
      let host :=
        if String.eqb host "::" || String.eqb host "0.0.0.0" || String.eqb host ""
        then defaultHost else host in
      (host ++ ":" ++ port)%string
  | inr _ =>
      match ParseIP net endpoint with
      | Some ip => if negb (IsUnspecified ip) then ip_String ip else defaultHost
      | None => defaultHost
      end
  end.

(** [init]: the flag is set from the KUBERNETES_PORT variable; the restore
    closure is dropped. *)
Definition init (getenv : string -> string) (inProduction : bool) : bool :=
  fst (SetInProduction (negb (String.eqb (getenv "KUBERNETES_PORT") "")) inProduction).


End Production.

(** ** pkg/trace: the Jaeger exporter

    Functions return their result together with the log lines and calls they
    made, in order. *)

Module Jaeger.

Definition jaegerAgentHostEnvKey     := "JAEGER_AGENT_HOST".
Definition jaegerAgentPort           := "6831".
Definition jaegerCollectorHostEnvKey := "JAEGER_COLLECTOR_HOST".
Definition jaegerCollectorPath       := "/api/traces".
Definition jaegerCollectorPort       := "14268".
Definition jaegerServiceNameEnvKey   := "JAEGER_SERVICE_NAME".

(** The fields of [ocjaeger.Options] the code touches. *)
Record JOptions : Type := mkJOptions {
  ServiceName       : string;
  AgentEndpoint     : string;
  CollectorEndpoint : string
}.

Inductive Exporter : Type := mkExporter (id : nat).

Inductive JEvent : Type :=
| JLogInfo (msg : string) (keysAndValues : list (string * string))
| JNewExporter (o : JOptions)
| JRegisterExporter (e : option Exporter).

(** [os.Getenv], the host escaping of [url.URL.String] and
    [ocjaeger.NewExporter]. *)
Record JEnv : Type := mkJEnv {
  Getenv      : string -> string;
  escapeHost  : string -> string;
  NewExporter : JOptions -> Exporter + error
}.

Definition Error (e : error) : string :=
  match e with
  | ErrServerClosed => "http: Server closed"
  | Errorf msg => msg
  end.

(** [strings.Join([]string{a, b}, ":")]. *)
Definition join2 (a b : string) : string := (a ++ ":" ++ b)%string.

(** [(&url.URL{Scheme: "http", Host: host, Path: path}).String()] for a path
    that needs no escaping. *)
Definition httpURL (env : JEnv) (host path : string) : string :=
  ("http://" ++ escapeHost env host ++ path)%string.

Definition setJaegerOptionsEndpoint (env : JEnv) (options : JOptions)
  : JOptions * list JEvent :=
  let jaegerCollectorHost := Getenv env jaegerCollectorHostEnvKey in
  if negb (String.eqb jaegerCollectorHost "") then
    (mkJOptions (ServiceName options) (AgentEndpoint options)
                (httpURL env (join2 jaegerCollectorHost jaegerCollectorPort)
                         jaegerCollectorPath),
     [])
  else
    let ev1 := [JLogInfo "JAEGER_COLLECTOR_HOST not defined, using the agent endpoint instead." []] in
    let jaegerAgentHost := Getenv env jaegerAgentHostEnvKey in
    let '(hostname, ev2) :=
      if negb (String.eqb jaegerAgentHost "") then (jaegerAgentHost, [])
      else ("localhost",
            [JLogInfo "JAEGER_AGENT_HOST not defined, using default agent host" []]) in
    (mkJOptions (ServiceName options) (join2 hostname jaegerAgentPort)
                (CollectorEndpoint options),
     ev1 ++ ev2).

(** What a [NewJaegerExporterFn] hands back: the exporter pointer, the options
    pointer and the error, each possibly nil, with what the call did. *)
Definition NewJaegerExporterFn : Type :=
  (option Exporter * option JOptions * option error) * list JEvent.

Definition RegisterExporterFn : Type := option Exporter -> list JEvent.

Definition newJaegerExporter (env : JEnv) : NewJaegerExporterFn :=
  let jaegerServiceName := Getenv env jaegerServiceNameEnvKey in
  let ev1 := if String.eqb jaegerServiceName ""
             then [JLogInfo "JAEGER_SERVICE_NAME not defined, using default service name" []]
             else [] in
  let '(options, ev2) := setJaegerOptionsEndpoint env (mkJOptions jaegerServiceName "" "") in
  match NewExporter env options with
  | inl exporter =>
      ((Some exporter, Some options, None), ev1 ++ ev2 ++ [JNewExporter options])
  | inr err =>
      ((None, Some options, Some err), ev1 ++ ev2 ++ [JNewExporter options])
  end.

(** [octrace.RegisterExporter]. *)
Definition octrace_RegisterExporter : RegisterExporterFn :=
  fun e => [JRegisterExporter e].

Record JaegerRegisterOptions : Type := mkJaegerRegisterOptions {
  NewJaegerExporter : option NewJaegerExporterFn;
  RegisterExporter  : option RegisterExporterFn
}.

Definition setJaegerRegisterOptionsDefault (env : JEnv) (options : JaegerRegisterOptions)
  : JaegerRegisterOptions :=
  let options :=
    match NewJaegerExporter options with
    | None => mkJaegerRegisterOptions (Some (newJaegerExporter env)) (RegisterExporter options)
    | Some _ => options
    end in
  match RegisterExporter options with
  | None => mkJaegerRegisterOptions (NewJaegerExporter options) (Some octrace_RegisterExporter)
  | Some _ => options
  end.

(** How a call ends: it returns, or it panics on a nil dereference. *)
Inductive Outcome : Type :=
| Returned (err : option error)
| Panicked.

Definition RegisterJaegerExporter (env : JEnv) (r : JaegerRegisterOptions)
  : Outcome * list JEvent :=
  let r := setJaegerRegisterOptionsDefault env r in
  match NewJaegerExporter r, RegisterExporter r with
  | Some newFn, Some registerFn =>
      let '((exporter, options, err), ev1) := newFn in
      match err with
      | Some e =>
          (Returned (Some e),
           ev1 ++ [JLogInfo "Failed to retrieve Jaeger tracing exporter" [("error", Error e)]])
      | None =>
          let ev2 := registerFn exporter in
          match options with
          | Some o =>
              (Returned None,
               ev1 ++ ev2 ++
               [JLogInfo "Registered Jaeger exporter"
                         [("agent_endpoint", AgentEndpoint o);
                          ("collector_endpoint", CollectorEndpoint o)]])
          | None => (Panicked, ev1 ++ ev2)
          end
      end
  | _, _ => (Panicked, [])
  end.

Definition is_register (e : JEvent) : bool :=
  match e with JRegisterExporter _ => true | _ => false end.

End Jaeger.

(** ** pkg/logger/advanced: the level a logger starts at *)

Module Logger.

Definition LogLevelEnvironmentVariable := "USGO_LOG_LEVEL".

(** [zapcore.Level] is an int8. *)
Definition Level := Z.
Definition DebugLevel : Level := (-1)%Z.
Definition InfoLevel  : Level := 0%Z.
Definition WarnLevel  : Level := 1%Z.
Definition ErrorLevel : Level := 2%Z.

Definition ProductionLoggerDefaultLevel  : Level := InfoLevel.
Definition DevelopmentLoggerDefaultLevel : Level := DebugLevel.

Definition MaxInt8 : Z := 127%Z.
Definition MinInt8 : Z := (-128)%Z.

(** A signed integer of [bits] bits: the value a Go operation keeps of [z]. *)
Definition wrap (bits : Z) (z : Z) : Z :=
  ((z + 2 ^ (bits - 1)) mod 2 ^ bits - 2 ^ (bits - 1))%Z.

(** [os.Getenv], [strings.ToLower], [strconv.Atoi] and the width of [int] on
    the platform. *)
Record LEnv : Type := mkLEnv {
  Getenv  : string -> string;
  ToLower : string -> string;
  Atoi    : string -> Z + error;
  IntSize : Z
}.

Definition getLoggerLevel (env : LEnv) (defaultLogLevel : Level) : Level :=
  let lvlStr := ToLower env (Getenv env LogLevelEnvironmentVariable) in
  if String.eqb lvlStr "debug" then DebugLevel
  else if String.eqb lvlStr "info" then InfoLevel
  else if String.eqb lvlStr "warning" then WarnLevel
  else if String.eqb lvlStr "error" then ErrorLevel
  else
    match Atoi env lvlStr with
    | inl lvl =>
        let convLvl := wrap (IntSize env) (-1 * lvl) in
        let convLvl := if (convLvl >=? MaxInt8)%Z then MaxInt8 else convLvl in
        let convLvl := if (convLvl <=? MinInt8)%Z then MinInt8 else convLvl in
        wrap 8 convLvl
    | inr _ => defaultLogLevel
    end.

Definition named (lvlStr : string) : bool :=
  String.eqb lvlStr "debug" || String.eqb lvlStr "info"
  || String.eqb lvlStr "warning" || String.eqb lvlStr "error".

End Logger.

(** ** pkg/metrics: the Prometheus exporter *)

Module Metrics.

Inductive Registry : Type := mkRegistry (id : nat).
Inductive View : Type := mkView (name : string).
Inductive PExporter : Type := mkPExporter (registry : option Registry).

(** [advlogs.LogCountView]. *)
Definition LogCountView : View := mkView "micro-server/logs".

Inductive MEvent : Type :=
| MNewRegistry
| MMustRegisterGoCollector (r : Registry)
| MNewExporter (r : option Registry)
| MRegisterExporter (e : PExporter)
| MRegisterViews (views : list View)
| MLogError (err : error) (msg : string).

(** [DefaultRegisterer] is [Some p] when [prometheus.DefaultRegisterer] holds a
    [*prometheus.Registry] ([p] may be the nil pointer), [None] otherwise. *)
Record MEnv : Type := mkMEnv {
  DefaultRegisterer : option (option Registry);
  NewRegistry       : Registry;
  NewExporter       : option Registry -> PExporter + error;
  view_Register     : list View -> option error
}.

Definition NewPrometheusExporterFromRegistry
           (env : MEnv) (registry : option Registry) (views : list View)
  : (option PExporter * option error) * list MEvent :=
  match NewExporter env registry with
  | inr err => ((None, Some err), [MNewExporter registry])
  | inl prometheusExporter =>
      let views := views ++ [LogCountView] in
      let ev := [MNewExporter registry; MRegisterExporter prometheusExporter;
                 MRegisterViews views] in
      match view_Register env views with
      | Some err =>
          ((Some prometheusExporter, None), ev ++ [MLogError err "Failed to register views"])
      | None => ((Some prometheusExporter, None), ev)
      end
  end.

Definition NewPrometheusExporter (env : MEnv) (views : list View)
  : (option PExporter * option error) * list MEvent :=
  let '(metricsRegistry, ev) :=
    match DefaultRegisterer env with
    | Some metricsRegistry => (metricsRegistry, [])
    | None =>
        let metricsRegistry := NewRegistry env in
        (Some metricsRegistry, [MNewRegistry; MMustRegisterGoCollector metricsRegistry])
    end in
  let '(r, ev') := NewPrometheusExporterFromRegistry env metricsRegistry views in
  (r, ev ++ ev').

Definition registers (e : MEvent) : bool :=
  match e with
  | MRegisterExporter _ | MRegisterViews _ => true
  | _ => false
  end.

End Metrics.

(** ** One controller used over time *)

Module Lifecycle.

Import Server.

(** A call on the controller, with the world it runs in. *)
Inductive Call : Type :=
| CallRun (env : Env) (ctx : AdvServer.Context)
| CallShutdown (env : Env).

Definition perform (c : Call) (s : httpServer) : M (option error * httpServer) :=
  match c with
  | CallRun env ctx => Run env ctx s
  | CallShutdown env => Shutdown env s
  end.

(** The calls one after the other on the same controller. *)
Fixpoint performAll (cs : list Call) (s : httpServer) : M (list (option error) * httpServer) :=
  match cs with
  | [] => ret ([], s)
  | c :: cs =>
      (r <- perform c s ;;
       rs <- performAll cs (snd r) ;;
       ret (fst r :: fst rs, snd rs))%go
  end.

Definition is_serve (e : Event) : bool :=
  match e with EvServe _ => true | _ => false end.

Definition is_listener_close (e : Event) : bool :=
  match e with EvListenerClose _ => true | _ => false end.

Definition is_log (e : Event) : bool :=
  match e with EvLogInfo _ _ => true | _ => false end.

(** How many times a serve loop was started. *)
Definition serves (t : Trace) : nat := List.length (filter is_serve t).

(** A controller on which [Run] returns at once. *)
Definition refusing (s : httpServer) : bool :=
  match listener s, runningServer s with
  | Some _, None => false
  | _, _ => true
  end.

End Lifecycle.

(** ** More about the signal transition system *)

Module SignalFacts2.

Import SignalContext.

Definition is_cancel (e : SEvent) : bool :=
  match e with Cancel => true | _ => false end.

(** A step that may end the wait of a caller of [<-ctx.Done()] for a reason
    other than a relayed signal. *)
Definition is_parent_cancel (o : Op) : bool :=
  match o with ParentCancel => true | _ => false end.

(** A delivery the registration relays. *)
Definition is_wanted_delivery (sigs : list Signal) (o : Op) : bool :=
  match o with
  | Deliver sig =>
      match sigs with
      | [] => true
      | l => existsb (Nat.eqb sig) l
      end
  | _ => false
  end.

(** The goroutine holds or will find something to receive, or is past the
    receive. *)
Definition armed (st : State) : bool :=
  match buf st with
  | _ :: _ => true
  | [] => closed st
          || match watcher st with
             | Cancelling | Finished => true
             | _ => false
             end
          || done st
  end.

(** Until the first release call: the registration stands, the channel is
    open and the once has not fired. *)
Record Standing (sigs : list Signal) (st : State) : Prop := mkStanding {
  st_signals  : signals st = sigs;
  st_notified : notified st = true;
  st_closed   : closed st = false;
  st_once     : once st = false
}.

End SignalFacts2.

(** ** More sample worlds *)

Module Samples2.

Definition wildcardNet : Production.Net :=
  {| Production.os_Hostname := inl "build-7";
     Production.SplitHostPort :=
       fun e => if String.eqb e "[::]:8080" then inl ("::", "8080")
                else if String.eqb e "10.0.0.5:80" then inl ("10.0.0.5", "80")
                else inr (Errorf "missing port in address");
     Production.ParseIP :=
       fun e => if String.eqb e "0.0.0.0" then Some (Production.mkIP true "0.0.0.0")
                else None |}.

Definition collectorEnv : Jaeger.JEnv :=
  {| Jaeger.Getenv :=
       fun k => if String.eqb k "JAEGER_COLLECTOR_HOST" then "tracing"
                else if String.eqb k "JAEGER_AGENT_HOST" then "agent" else "";
     Jaeger.escapeHost := fun h => h;
     Jaeger.NewExporter := fun _ => inl (Jaeger.mkExporter 1) |}.

Definition bareEnv : Jaeger.JEnv :=
  {| Jaeger.Getenv := fun _ => "";
     Jaeger.escapeHost := fun h => h;
     Jaeger.NewExporter := fun _ => inr (Errorf "dial udp: lookup failed") |}.

(** A custom exporter function that hands back no options. *)
Definition noOptionsFn : Jaeger.NewJaegerExporterFn :=
  ((Some (Jaeger.mkExporter 7), None, None), []).

Definition level17 : Logger.LEnv :=
  {| Logger.Getenv := fun _ => "17";
     Logger.ToLower := fun s => s;
     Logger.Atoi := fun s => if String.eqb s "17" then inl 17%Z
                             else inr (Errorf "strconv.Atoi: invalid syntax");
     Logger.IntSize := 64%Z |}.

Definition brokenViews : Metrics.MEnv :=
  {| Metrics.DefaultRegisterer := None;
     Metrics.NewRegistry := Metrics.mkRegistry 0;
     Metrics.NewExporter := fun r => inl (Metrics.mkPExporter r);
     Metrics.view_Register := fun _ => Some (Errorf "view already registered") |}.

Definition noExporter : Metrics.MEnv :=
  {| Metrics.DefaultRegisterer := Some (Some (Metrics.mkRegistry 3));
     Metrics.NewRegistry := Metrics.mkRegistry 0;
     Metrics.NewExporter := fun _ => inr (Errorf "cannot create exporter");
     Metrics.view_Register := fun _ => None |}.

(** A router with a subrouter, every route with its path. *)
Definition healthRouter : Mux.Router :=
  {| Mux.routes :=
       [ Mux.mkRoute (Some "/healthz/") None false
           [ Mux.mkRoute (Some "/healthz/liveness") (Some ["GET"]) true [];
             Mux.mkRoute (Some "/healthz/readiness") (Some ["GET"]) true [] ];
         Mux.mkRoute (Some "/metrics") (Some ["GET"]) true [] ];
     Mux.ServeHTTP := fun r => [Served r] |}.

Definition monitored : Server.httpServer :=
  {| Server.endpoint := ":8080";
     Server.gracefulTimeout := Options.defaultGracefulTimeout;
     Server.router := healthRouter;
     Server.listener := Some Samples.ln8080;
     Server.serverURL := "http://localhost:8080";
     Server.runningServer := None |}.


End Samples2.

(** * Properties *)

(** Unfolds the trace monad so that a computation becomes a pair. *)
Ltac run_go := unfold call, bind, emit, history, ret in *; cbn [fst snd] in *.

(** ** Helper facts *)

Lemma prefix_backslashes (rest : string) :
  String.prefix "\\" ("\\" ++ rest)%string = true.
Proof. destruct rest; reflexivity. Qed.

Lemma not_prefix_backslashes (endpoint : string) :
  (forall rest, endpoint <> ("\\" ++ rest)%string) -> String.prefix "\\" endpoint = false.
Proof.
  intros Hno.
  destruct (String.prefix "\\" endpoint) eqn:Hp; [exfalso | reflexivity].
  destruct endpoint as [|c1 [|c2 rest]]; cbn [String.prefix] in Hp; try discriminate.
  - destruct (ascii_dec "\" c1); discriminate.
  - destruct (ascii_dec "\" c1) as [<-|]; [|discriminate].
    destruct (ascii_dec "\" c2) as [<-|]; [|discriminate].
    apply (Hno rest). reflexivity.
Qed.

(** ** Options *)

Section OptionsFacts.

Import Options Server.

Lemma setOptionsDefaults_timeout (o : Options) :
  option_map GracefulTimeout (setOptionsDefaults (Some o))
  = Some (if (GracefulTimeout o =? 0)%Z then defaultGracefulTimeout
          else GracefulTimeout o).
Proof. cbn. destruct (GracefulTimeout o =? 0)%Z; reflexivity. Qed.

Lemma NewBaseServer_inl env ep o t s t' :
  NewBaseServer env ep o t = (inl s, t') ->
  exists l,
    fst (AdvServer.NewListener env ep t) = inl l /\
    t' = snd (AdvServer.NewListener env ep t) /\
    listener s = Some l /\ runningServer s = None /\
    gracefulTimeout s = (if (GracefulTimeout o =? 0)%Z then defaultGracefulTimeout
                         else GracefulTimeout o).
Proof.
  unfold NewBaseServer. run_go.
  destruct (AdvServer.NewListener env ep t) as [[l|e] t1]; intros H;
    inversion H; subst; clear H.
  exists l. cbn. repeat split.
  destruct (GracefulTimeout o =? 0)%Z; reflexivity.
Qed.

End OptionsFacts.

(** C4, as the code has it.  A server built by [NewBaseServer] gets the default
    graceful timeout of 5 seconds exactly when the option is zero; every other
    value, positive or negative, is kept as given. *)
Theorem graceful_timeout_default_on_zero :
  forall env ep (o : Options.Options) t s t',
    Server.NewBaseServer env ep o t = (inl s, t') ->
    Options.defaultGracefulTimeout = 5000000000%Z /\
    (Options.GracefulTimeout o = 0%Z ->
     Server.gracefulTimeout s = Options.defaultGracefulTimeout) /\
    (Options.GracefulTimeout o <> 0%Z ->
     Server.gracefulTimeout s = Options.GracefulTimeout o).
Proof.
  intros env ep o t s t' H.
  destruct (NewBaseServer_inl _ _ _ _ _ _ H) as (l & _ & _ & _ & _ & Hg).
  split; [reflexivity|]. rewrite Hg. split; intros Hz.
  - rewrite Hz. reflexivity.
  - apply Z.eqb_neq in Hz. rewrite Hz. reflexivity.
Qed.

Lemma graceful_timeout_default_on_zero_witness :
  Server.gracefulTimeout Samples.fresh = Options.defaultGracefulTimeout.
Proof.
  apply (graceful_timeout_default_on_zero Samples.calmEnv ":8080"
           (Options.mkOptions false false 0%Z false) [] Samples.fresh
           [EvListenTCP ":8080"]); reflexivity.
Defined.

(** C4 as stated fails: a negative timeout is non-positive and yet the server
    keeps it instead of the default. *)
Lemma negative_timeout_is_kept :
  (Options.GracefulTimeout Samples.negativeTimeout <= 0)%Z /\
  exists s,
    fst (Server.NewBaseServer Samples.calmEnv ":8080" Samples.negativeTimeout []) = inl s /\
    Server.gracefulTimeout s = (-1)%Z /\
    Server.gracefulTimeout s <> Options.defaultGracefulTimeout.
Proof.
  split; [cbn; lia|].
  eexists. split; [reflexivity|]. split; [reflexivity|]. cbn. discriminate.
Qed.

(** ** Listener factory *)

(** C9.  An endpoint that starts with two backslashes gets one named-pipe
    attempt on that very string, whatever follows the prefix; any other
    endpoint gets one TCP attempt on it.  The trace grows by that single
    attempt and the result is the world's answer to it.  Both copies of
    [parseListener] and [NewListener] agree. *)
Theorem parseListener_pipe_or_tcp :
  forall env t,
    (forall rest,
        let ep := ("\\" ++ rest)%string in
        AdvServer.parseListener env ep t
        = (ListenPipe env ep (t ++ [EvListenPipe ep]), t ++ [EvListenPipe ep])) /\
    (forall ep,
        (forall rest, ep <> ("\\" ++ rest)%string) ->
        AdvServer.parseListener env ep t
        = (Listen_tcp env ep (t ++ [EvListenTCP ep]), t ++ [EvListenTCP ep])) /\
    (forall ep,
        AdvServer.NewListener env ep t = AdvServer.parseListener env ep t /\
        Server.parseListener env ep t = AdvServer.parseListener env ep t).
Proof.
  intros env t. split; [|split].
  - intros rest ep. unfold AdvServer.parseListener.
    unfold ep. rewrite prefix_backslashes. reflexivity.
  - intros ep Hno. unfold AdvServer.parseListener.
    rewrite (not_prefix_backslashes ep Hno). reflexivity.
  - intros ep. split; reflexivity.
Qed.

Lemma parseListener_pipe_or_tcp_witness :
  AdvServer.parseListener Samples.calmEnv ":8080" []
  = (inl Samples.ln8080, [EvListenTCP ":8080"]).
Proof.
  apply (proj1 (proj2 (parseListener_pipe_or_tcp Samples.calmEnv [])) ":8080").
  intros rest H. discriminate H.
Defined.

(** ** Serve loop *)

(** C7.  [RunServer] starts the serve loop on the listener and classifies how
    it ended: [http.ErrServerClosed] becomes success, any other error is
    returned as it is.  The outcome is the world's answer at the history
    [RunServer] leaves behind. *)
Theorem RunServer_server_closed_is_success :
  forall env ctx srv l d t,
    let r := AdvServer.RunServer env ctx srv l d t in
    In (EvServe l) (snd r) /\
    (Serve env l (snd r) = Some ErrServerClosed -> fst r = None) /\
    (forall e, Serve env l (snd r) = Some e -> e <> ErrServerClosed -> fst r = Some e).
Proof.
  intros env ctx srv l d t r. subst r.
  unfold AdvServer.RunServer, AdvServer.waiter. run_go.
  destruct (ctx (t ++ [EvServe l])); cbn [fst snd].
  - split; [|split].
    + rewrite !in_app_iff. cbn. tauto.
    + intros ->. reflexivity.
    + intros e -> Hne. destruct e; [contradiction|reflexivity].
  - split; [|split].
    + rewrite !in_app_iff. cbn. tauto.
    + intros ->. reflexivity.
    + intros e -> Hne. destruct e; [contradiction|reflexivity].
Qed.

Lemma RunServer_server_closed_is_success_witness :
  fst (AdvServer.RunServer Samples.calmEnv Samples.cancelled
         (AdvServer.NewServer Samples.echo Samples.ln8080) Samples.ln8080 Second []) = None
  /\ fst (AdvServer.RunServer Samples.acceptFailsEnv Samples.neverDone
         (AdvServer.NewServer Samples.echo Samples.ln8080) Samples.ln8080 Second [])
     = Some Samples.errAccept.
Proof.
  split.
  - apply (proj1 (proj2 (RunServer_server_closed_is_success Samples.calmEnv
             Samples.cancelled (AdvServer.NewServer Samples.echo Samples.ln8080)
             Samples.ln8080 Second []))).
    reflexivity.
  - apply (proj2 (proj2 (RunServer_server_closed_is_success Samples.acceptFailsEnv
             Samples.neverDone (AdvServer.NewServer Samples.echo Samples.ln8080)
             Samples.ln8080 Second [])) Samples.errAccept).
    + reflexivity.
    + discriminate.
Defined.

(** ** Handler composition *)

(** C3, as the code has it.  [ConfigureHandler] wraps the handler in CORS first
    and in the method override second, so the method override is the outermost
    layer: for every handler and request it looks at the request first, and
    the CORS layer then looks at the request the override produced. *)
Theorem method_override_is_outermost :
  forall (h : Handler) (r : Request),
    AdvServer.ConfigureHandler h = 
      Handlers.HTTPMethodOverrideHandler (Handlers.CORS AdvServer.CORSOptions h) /\
    first_inspector (AdvServer.ConfigureHandler h r) = Some LMethodOverride /\
    exists rest,
      AdvServer.ConfigureHandler h r
      = Inspect LMethodOverride r :: Inspect LCors (Handlers.overrideMethod r) :: rest.
Proof.
  intros h r. split; [reflexivity|]. split; [reflexivity|].
  eexists. reflexivity.
Qed.

(** A preflight goes through the override layer first, untouched since it is
    not a POST, and is then answered by the CORS layer; the wrapped handler is
    not called. *)
Example preflight_is_answered_inside :
  AdvServer.ConfigureHandler Samples.echo Samples.preflight
  = [ Inspect LMethodOverride Samples.preflight;
      Inspect LCors Samples.preflight;
      SetHeader "Access-Control-Allow-Methods" "PUT";
      SetHeader "Access-Control-Allow-Credentials" "true";
      SetHeader "Access-Control-Allow-Origin" "*";
      WriteHeader 200 ].
Proof. reflexivity. Qed.

(** C3 as stated fails: on a POST that carries a method override, the override
    layer is the first to look at the request, and CORS only sees the request
    once its method has been rewritten to DELETE. *)
Lemma cors_is_not_first :
  first_inspector (AdvServer.ConfigureHandler Samples.echo Samples.postAsDelete)
  <> Some LCors /\
  exists rest,
    AdvServer.ConfigureHandler Samples.echo Samples.postAsDelete
    = Inspect LMethodOverride Samples.postAsDelete
      :: Inspect LCors (Handlers.withMethod Samples.postAsDelete "DELETE") :: rest.
Proof.
  split; [cbn; discriminate|]. eexists. reflexivity.
Qed.

(** ** Router walk *)

Section WalkFacts.

Import Mux Server.

Variable walkFn : Route -> M (option error).

Lemma walkRoute_eq tpl m h subs t :
  walkRoute walkFn (mkRoute tpl m h subs) t
  = match walkFn (mkRoute tpl m h subs) t with
    | (Some e, t1) => (Some e, t1)
    | (None, t1) => walkRoutes walkFn subs t1
    end.
Proof.
  cbn [walkRoute]. unfold bind at 1.
  destruct (walkFn (mkRoute tpl m h subs) t) as [[e|] t1]; [reflexivity|].
  revert t1. induction subs as [|x xs IH]; intros t1; [reflexivity|].
  cbn [walkRoutes]. unfold bind.
  destruct (walkRoute walkFn x t1) as [[e|] t2]; [reflexivity|]. apply IH.
Qed.

Lemma walkRoutes_cons x xs t :
  walkRoutes walkFn (x :: xs) t
  = match walkRoute walkFn x t with
    | (Some e, t1) => (Some e, t1)
    | (None, t1) => walkRoutes walkFn xs t1
    end.
Proof.
  cbn [walkRoutes]. unfold bind.
  destruct (walkRoute walkFn x t) as [[e|] t1]; reflexivity.
Qed.

Lemma walkRoutes_app a b t :
  walkRoutes walkFn (a ++ b) t
  = match walkRoutes walkFn a t with
    | (Some e, t1) => (Some e, t1)
    | (None, t1) => walkRoutes walkFn b t1
    end.
Proof.
  revert t. induction a as [|x xs IH]; intros t; [reflexivity|].
  rewrite <- app_comm_cons, !walkRoutes_cons.
  destruct (walkRoute walkFn x t) as [[e|] t1]; [reflexivity|]. apply IH.
Qed.

End WalkFacts.

Section LogRouteFacts.

Import Mux Server.

Variable s : httpServer.

Lemma logRoute_pathless r e t :
  GetPathTemplate r = inr e -> walkRoute (logRoute s) r t = (Some e, t).
Proof.
  destruct r as [[tpl|] m h subs]; cbn [GetPathTemplate]; intros H; inversion H; subst.
  rewrite walkRoute_eq. reflexivity.
Qed.

Lemma logRoute_line tpl m h subs t :
  logRoute s (mkRoute (Some tpl) m h subs) t
  = (None, t ++ [EvLogInfo ("Exposed Route: `" ++ GetServerURL s ++ tpl ++ "`") m]).
Proof. unfold logRoute. destruct m; reflexivity. Qed.

Lemma walkRoute_templated :
  forall r t, templated r = true ->
         walkRoute (logRoute s) r t = (None, t ++ exposedRoute s r).
Proof.
  induction r as [tpl m h subs IH] using Route_nested_ind.
  intros t Ht. destruct tpl as [tpl|]; [|discriminate Ht].
  cbn [templated] in Ht. rewrite walkRoute_eq, logRoute_line.
  cbn [exposedRoute].
  set (line := EvLogInfo _ m).
  change (t ++ line :: flat_map (exposedRoute s) subs)
    with (t ++ [line] ++ flat_map (exposedRoute s) subs).
  rewrite app_assoc. generalize (t ++ [line]). clear line.
  induction subs as [|x xs IHxs]; intros t1.
  - cbn. rewrite app_nil_r. reflexivity.
  - cbn [forallb] in Ht. apply andb_prop in Ht. destruct Ht as [Hx Hxs].
    inversion IH as [|? ? Px Pxs]; subst.
    rewrite walkRoutes_cons, (Px t1 Hx). cbn [flat_map].
    rewrite app_assoc. apply IHxs; assumption.
Qed.

Lemma walkRoutes_templated l :
  forall t, forallb templated l = true ->
       walkRoutes (logRoute s) l t = (None, t ++ exposed s l).
Proof.
  induction l as [|x xs IH]; intros t Ht.
  - cbn. rewrite app_nil_r. reflexivity.
  - cbn [forallb] in Ht. apply andb_prop in Ht. destruct Ht as [Hx Hxs].
    rewrite walkRoutes_cons, (walkRoute_templated x t Hx).
    unfold exposed. cbn [flat_map]. rewrite app_assoc. apply IH. exact Hxs.
Qed.

(** The walk logs the routes in front of the first route without a path
    template and stops there with mux's error. *)
Lemma Walk_stops_at_pathless pre bad post e t :
  forallb templated pre = true ->
  GetPathTemplate bad = inr e ->
  walkRoutes (logRoute s) (pre ++ bad :: post) t = (Some e, t ++ exposed s pre).
Proof.
  intros Hpre Hbad.
  rewrite walkRoutes_app, (walkRoutes_templated pre t Hpre), walkRoutes_cons.
  rewrite (logRoute_pathless bad e _ Hbad). reflexivity.
Qed.

End LogRouteFacts.

(** ** Shutdown *)

Section ShutdownFacts.

Import Server.

Variable env : Env.

Lemma Shutdown_released s t :
  runningServer s = None -> listener s = None ->
  Shutdown env s t = ((None, s), t).
Proof. intros Hr Hl. unfold Shutdown. rewrite Hr. run_go. rewrite Hl. reflexivity. Qed.

Lemma Shutdown_listener_only s l t :
  runningServer s = None -> listener s = Some l ->
  Shutdown env s t
  = let t1 := t ++ [EvListenerClose l] in
    match ListenerClose env l t1 with
    | Some e => ((Some e, s), t1 ++ [EvLogError e "error during listener close"])
    | None => ((None, set_listener s None), t1)
    end.
Proof.
  intros Hr Hl. unfold Shutdown. rewrite Hr. run_go. rewrite Hl. cbn.
  destruct (ListenerClose env l (t ++ [EvListenerClose l])); reflexivity.
Qed.

Lemma Shutdown_running s srv t :
  runningServer s = Some srv ->
  Shutdown env s t
  = let t1 := t ++ [EvServerShutdown None] in
    match ServerShutdown env t1 with
    | Some e => ((Some e, s), t1 ++ [EvLogError e "error during server shutdown"])
    | None =>
        let t2 := t1 ++ [EvServerClose] in
        match ServerClose env t2 with
        | Some e => ((Some e, s), t2 ++ [EvLogError e "error during server close"])
        | None => ((None, set_runningServer (set_listener s None) None), t2)
        end
    end.
Proof.
  intros Hr. unfold Shutdown. rewrite Hr. run_go. cbn.
  destruct (ServerShutdown env (t ++ [EvServerShutdown None])); [reflexivity|].
  destruct (ServerClose env ((t ++ [EvServerShutdown None]) ++ [EvServerClose]));
    reflexivity.
Qed.

(** A [Shutdown] that returns nil leaves neither a listener nor a running
    server behind. *)
Lemma Shutdown_nil_releases s t s' t' :
  Shutdown env s t = ((None, s'), t') ->
  listener s' = None /\ runningServer s' = None.
Proof.
  destruct (runningServer s) as [srv|] eqn:Hr.
  - rewrite (Shutdown_running s srv t Hr). cbv zeta.
    destruct (ServerShutdown env _); [discriminate|].
    destruct (ServerClose env _); [discriminate|].
    intros H. inversion H. split; reflexivity.
  - destruct (listener s) as [l|] eqn:Hl.
    + rewrite (Shutdown_listener_only s l t Hr Hl). cbv zeta.
      destruct (ListenerClose env l _); [discriminate|].
      intros H. inversion H. split; [reflexivity|exact Hr].
    + rewrite (Shutdown_released s t Hr Hl).
      intros H. inversion H; subst. split; assumption.
Qed.

(** A [Shutdown] that returns an error has changed nothing in the receiver. *)
Lemma Shutdown_error_keeps s t e s' t' :
  Shutdown env s t = ((Some e, s'), t') -> s' = s.
Proof.
  destruct (runningServer s) as [srv|] eqn:Hr.
  - rewrite (Shutdown_running s srv t Hr). cbv zeta.
    destruct (ServerShutdown env _); [intros H; inversion H; reflexivity|].
    destruct (ServerClose env _); intros H; inversion H; reflexivity.
  - destruct (listener s) as [l|] eqn:Hl.
    + rewrite (Shutdown_listener_only s l t Hr Hl). cbv zeta.
      destruct (ListenerClose env l _); intros H; inversion H; reflexivity.
    + rewrite (Shutdown_released s t Hr Hl). discriminate.
Qed.

Lemma Shutdown_extends s t :
  exists ext, snd (Shutdown env s t) = t ++ ext.
Proof.
  destruct (runningServer s) as [srv|] eqn:Hr.
  - rewrite (Shutdown_running s srv t Hr). cbv zeta.
    destruct (ServerShutdown env _).
    + eexists. cbn [snd]. rewrite <- app_assoc. reflexivity.
    + destruct (ServerClose env _); eexists; cbn [snd];
        rewrite <- ?app_assoc; reflexivity.
  - destruct (listener s) as [l|] eqn:Hl.
    + rewrite (Shutdown_listener_only s l t Hr Hl). cbv zeta.
      destruct (ListenerClose env l _); eexists; cbn [snd];
        rewrite <- ?app_assoc; reflexivity.
    + rewrite (Shutdown_released s t Hr Hl). exists []. cbn. now rewrite app_nil_r.
Qed.

End ShutdownFacts.

(** C1, as the code has it.  [Shutdown] stops at the first failure.  When the
    running server's shutdown fails, the error is logged and returned at once:
    neither the server's close nor the listener's close is attempted.  When the
    server's close fails after a clean shutdown, the error is logged and
    returned without a close attempt on the listener.  In both cases the
    receiver keeps its listener and its running server. *)
Theorem Shutdown_stops_at_first_error :
  forall env (s : Server.httpServer) srv t e,
    Server.runningServer s = Some srv ->
    let t1 := t ++ [EvServerShutdown None] in
    let t2 := t1 ++ [EvServerClose] in
    (ServerShutdown env t1 = Some e ->
     Server.Shutdown env s t
     = ((Some e, s), t1 ++ [EvLogError e "error during server shutdown"])) /\
    (ServerShutdown env t1 = None -> ServerClose env t2 = Some e ->
     Server.Shutdown env s t
     = ((Some e, s), t2 ++ [EvLogError e "error during server close"])).
Proof.
  intros env s srv t e Hr t1 t2. rewrite (Shutdown_running env s srv t Hr).
  cbv zeta. fold t1. fold t2. split.
  - intros ->. reflexivity.
  - intros -> ->. reflexivity.
Qed.

Lemma Shutdown_stops_at_first_error_witness :
  Server.Shutdown Samples.shutdownFailsEnv (Server.serving Samples.fresh Samples.ln8080) []
  = ((Some Samples.errShutdown, Server.serving Samples.fresh Samples.ln8080),
     [EvServerShutdown None;
      EvLogError Samples.errShutdown "error during server shutdown"])
  /\
  Server.Shutdown Samples.closeFailsEnv (Server.serving Samples.fresh Samples.ln8080) []
  = ((Some Samples.errShutdown, Server.serving Samples.fresh Samples.ln8080),
     [EvServerShutdown None; EvServerClose;
      EvLogError Samples.errShutdown "error during server close"]).
Proof.
  split.
  - apply (proj1 (Shutdown_stops_at_first_error Samples.shutdownFailsEnv
                    (Server.serving Samples.fresh Samples.ln8080)
                    (AdvServer.NewServer (Mux.ServeHTTP Mux.NewRouter) Samples.ln8080)
                    [] Samples.errShutdown eq_refl)).
    reflexivity.
  - apply (proj2 (Shutdown_stops_at_first_error Samples.closeFailsEnv
                    (Server.serving Samples.fresh Samples.ln8080)
                    (AdvServer.NewServer (Mux.ServeHTTP Mux.NewRouter) Samples.ln8080)
                    [] Samples.errShutdown eq_refl)).
    + reflexivity.
    + reflexivity.
Defined.

(** C1 as stated fails: with a running server whose shutdown fails, [Shutdown]
    returns the error and its trace holds no close attempt on the listener and
    none on the server; the listener is still held. *)
Lemma failed_shutdown_skips_listener_close :
  let s := Server.serving Samples.fresh Samples.ln8080 in
  let r := Server.Shutdown Samples.shutdownFailsEnv s [] in
  Server.listener s = Some Samples.ln8080 /\
  fst (fst r) = Some Samples.errShutdown /\
  ~ In (EvListenerClose Samples.ln8080) (snd r) /\
  ~ In EvServerClose (snd r) /\
  Server.listener (snd (fst r)) = Some Samples.ln8080.
Proof.
  cbv zeta. repeat split.
  - cbn. intros [H|[H|[]]]; discriminate H.
  - cbn. intros [H|[H|[]]]; discriminate H.
Qed.

(** ** Run *)

Section RunFacts.

Import Server.

Variable env : Env.
Variable ctx : AdvServer.Context.

Lemma RunServer_extends srv l d t :
  exists ext, snd (AdvServer.RunServer env ctx srv l d t) = t ++ EvServe l :: ext.
Proof.
  unfold AdvServer.RunServer, AdvServer.waiter. run_go.
  destruct (ctx (t ++ [EvServe l])); cbn [snd].
  - exists [EvServerShutdown (Some d); EvServerClose].
    rewrite <- !app_assoc. reflexivity.
  - exists []. reflexivity.
Qed.

Lemma Run_no_listener s t :
  listener s = None ->
  Run env ctx s t = ((Some (Errorf "listener not initialised"), s), t).
Proof. intros H. unfold Run. rewrite H. reflexivity. Qed.

Lemma Run_already_running s l srv t :
  listener s = Some l -> runningServer s = Some srv ->
  Run env ctx s t = ((Some (Errorf "server already running"), s), t).
Proof. intros Hl Hr. unfold Run. rewrite Hl, Hr. reflexivity. Qed.

(** A [Run] that passes its checks, step by step. *)
Lemma Run_started s l t :
  listener s = Some l -> runningServer s = None ->
  Run env ctx s t
  = let s1 := serving s l in
    let srv := AdvServer.NewServer (Mux.ServeHTTP (router s)) l in
    let w := Mux.Walk (router s) (logRoute s1)
                      (t ++ [EvLogInfo "Starting the HTTP server" None]) in
    let rs := AdvServer.RunServer env ctx srv l (gracefulTimeout s) (snd w) in
    let t3 := match fst rs with
              | Some e => snd rs ++ [EvLogError e "Failed to run the HTTP server"]
              | None => snd rs
              end ++ [EvLogInfo "Stopped the HTTP server" None] in
    let sd := Shutdown env s1 t3 in
    ((fst rs, snd (fst sd)), snd sd).
Proof.
  intros Hl Hr. unfold Run. rewrite Hl, Hr. cbv zeta.
  unfold bind at 1. unfold emit at 1.
  unfold bind at 1. change (router (serving s l)) with (router s).
  destruct (Mux.Walk (router s) (logRoute (serving s l)) _) as [w tw].
  unfold bind at 1. change (gracefulTimeout (serving s l)) with (gracefulTimeout s).
  cbn [snd].
  destruct (AdvServer.RunServer env ctx _ l (gracefulTimeout s) tw) as [[e|] trs];
    cbn [fst snd]; run_go;
    destruct (Shutdown env (serving s l) _) as [[r s2] tsd]; reflexivity.
Qed.

(** Whatever state a [Run] leaves behind, the next [Run] is refused. *)
Lemma Run_leaves_refusing_state s t :
  let s' := snd (fst (Run env ctx s t)) in
  listener s' = None \/ (exists l srv, listener s' = Some l /\ runningServer s' = Some srv).
Proof.
  cbv zeta.
  destruct (listener s) as [l|] eqn:Hl.
  - destruct (runningServer s) as [srv|] eqn:Hr.
    + rewrite (Run_already_running s l srv t Hl Hr). cbn. right. eauto.
    + rewrite (Run_started s l t Hl Hr). cbv zeta. cbn [fst snd].
      match goal with |- context [Shutdown env ?a ?b] =>
        destruct (Shutdown env a b) as [[[e|] s2] t2] eqn:Hsd end; cbn [fst snd].
      * apply Shutdown_error_keeps in Hsd. subst s2. right.
        exists l. eexists. split; [exact Hl|reflexivity].
      * apply Shutdown_nil_releases in Hsd. left. apply Hsd.
  - rewrite (Run_no_listener s t Hl). cbn. left. exact Hl.
Qed.

End RunFacts.

(** C2, as the code has it.  The walk over the routes stops at the first route
    without a path template, having logged only the routes in front of it, and
    [Run] drops the walk's error: it goes on to serve on the listener, and what
    it returns is what [RunServer] returns. *)
Theorem Run_serves_despite_pathless_route :
  forall env ctx (s : Server.httpServer) l t pre bad post e,
    Server.listener s = Some l ->
    Server.runningServer s = None ->
    Mux.routes (Server.router s) = pre ++ bad :: post ->
    forallb Mux.templated pre = true ->
    Mux.GetPathTemplate bad = inr e ->
    let s1 := Server.serving s l in
    let t0 := t ++ [EvLogInfo "Starting the HTTP server" None] in
    let tw := t0 ++ Server.exposed s1 pre in
    let r := Server.Run env ctx s t in
    Mux.Walk (Server.router s) (Server.logRoute s1) t0 = (Some e, tw) /\
    In (EvServe l) (snd r) /\
    fst (fst r)
    = fst (AdvServer.RunServer env ctx
             (AdvServer.NewServer (Mux.ServeHTTP (Server.router s)) l) l
             (Server.gracefulTimeout s) tw).
Proof.
  intros env ctx s l t pre bad post e Hl Hr Hroutes Hpre Hbad s1 t0 tw r.
  assert (Hw : Mux.Walk (Server.router s) (Server.logRoute s1) t0 = (Some e, tw)).
  { unfold Mux.Walk. rewrite Hroutes. apply Walk_stops_at_pathless; assumption. }
  split; [exact Hw|].
  subst r. rewrite (Run_started env ctx s l t Hl Hr). cbv zeta.
  fold s1. fold t0. rewrite Hw. cbn [fst snd]. split; [|reflexivity].
  match goal with |- context [Server.Shutdown env s1 ?b] =>
    destruct (Shutdown_extends env s1 b) as [ext1 ->] end.
  destruct (RunServer_extends env ctx
              (AdvServer.NewServer (Mux.ServeHTTP (Server.router s)) l) l
              (Server.gracefulTimeout s) tw) as [ext2 Hrs].
  rewrite Hrs.
  destruct (fst (AdvServer.RunServer _ _ _ _ _ _));
    rewrite !in_app_iff; cbn; tauto.
Qed.

Lemma Run_serves_despite_pathless_route_witness :
  In (EvServe Samples.ln8080)
     (snd (Server.Run Samples.calmEnv Samples.cancelled Samples.pathless [])).
Proof.
  apply (Run_serves_despite_pathless_route Samples.calmEnv Samples.cancelled
           Samples.pathless Samples.ln8080 []
           [Mux.mkRoute (Some "/healthz/liveness") (Some ["GET"]) true []]
           (Mux.mkRoute None (Some ["GET"]) true [])
           [Mux.mkRoute (Some "/metrics") (Some ["GET"]) true []]
           (Errorf "mux: route doesn't have a path"));
    reflexivity.
Defined.

(** C2 as stated fails: a registered route has no path template, and [Run]
    neither aborts nor reports it: it serves on the listener and returns nil. *)
Lemma pathless_route_does_not_abort_run :
  let r := Server.Run Samples.calmEnv Samples.cancelled Samples.pathless [] in
  (exists route e, In route (Mux.routes (Server.router Samples.pathless)) /\
                   Mux.GetPathTemplate route = inr e) /\
  fst (fst r) = None /\
  In (EvServe Samples.ln8080) (snd r).
Proof.
  cbv zeta. split; [|split].
  - exists (Mux.mkRoute None (Some ["GET"]) true []). eexists.
    split; [cbn; tauto | reflexivity].
  - reflexivity.
  - cbn. tauto.
Qed.

(** C6.  [Run] reports a violated precondition as a returned error, with no
    effect and no change of the receiver: a nil listener gives "listener not
    initialised"; a receiver that already holds a running server gives "server
    already running", and that is what a second [Run] finds while the first one
    serves. *)
Theorem Run_precondition_errors :
  forall env ctx (s : Server.httpServer) t,
    (Server.listener s = None ->
     Server.Run env ctx s t = ((Some (Errorf "listener not initialised"), s), t)) /\
    (forall l srv,
        Server.listener s = Some l -> Server.runningServer s = Some srv ->
        Server.Run env ctx s t = ((Some (Errorf "server already running"), s), t)) /\
    (forall l,
        Server.listener s = Some l -> Server.runningServer s = None ->
        Server.Run env ctx (Server.serving s l) t
        = ((Some (Errorf "server already running"), Server.serving s l), t)).
Proof.
  intros env ctx s t. split; [|split].
  - apply Run_no_listener.
  - intros l srv. apply Run_already_running.
  - intros l Hl Hr. eapply Run_already_running; [exact Hl|reflexivity].
Qed.

Lemma Run_precondition_errors_witness :
  Server.Run Samples.calmEnv Samples.neverDone (Server.set_listener Samples.fresh None) []
  = ((Some (Errorf "listener not initialised"), Server.set_listener Samples.fresh None), [])
  /\
  Server.Run Samples.calmEnv Samples.neverDone
             (Server.serving Samples.fresh Samples.ln8080) []
  = ((Some (Errorf "server already running"),
      Server.serving Samples.fresh Samples.ln8080), []).
Proof.
  split.
  - apply (proj1 (Run_precondition_errors Samples.calmEnv Samples.neverDone
                    (Server.set_listener Samples.fresh None) [])).
    reflexivity.
  - apply (proj2 (proj2 (Run_precondition_errors Samples.calmEnv Samples.neverDone
                           Samples.fresh [])) Samples.ln8080); reflexivity.
Defined.

(** C5, as the code has it.  On a controller whose shutdown has completed,
    [Shutdown] returns nil, does nothing and changes nothing.  On a controller
    fresh from [NewBaseServer], never run, it closes the listener: the close is
    attempted, and the listener field becomes nil when the close succeeds, while
    a failing close is logged and returned. *)
Theorem Shutdown_idle_and_fresh :
  (forall env0 s0 t0 s t1,
      Server.Shutdown env0 s0 t0 = ((None, s), t1) ->
      forall env t, Server.Shutdown env s t = ((None, s), t)) /\
  (forall env0 ep o t0 s t1,
      Server.NewBaseServer env0 ep o t0 = (inl s, t1) ->
      exists l,
        Server.listener s = Some l /\
        forall env t,
          let t2 := t ++ [EvListenerClose l] in
          Server.Shutdown env s t
          = match ListenerClose env l t2 with
            | Some e => ((Some e, s), t2 ++ [EvLogError e "error during listener close"])
            | None => ((None, Server.set_listener s None), t2)
            end).
Proof.
  split.
  - intros env0 s0 t0 s t1 H env t.
    destruct (Shutdown_nil_releases _ _ _ _ _ H) as [Hl Hr].
    apply Shutdown_released; assumption.
  - intros env0 ep o t0 s t1 H.
    destruct (NewBaseServer_inl _ _ _ _ _ _ H) as (l & _ & _ & Hl & Hr & _).
    exists l. split; [exact Hl|]. intros env t.
    apply Shutdown_listener_only; assumption.
Qed.

Lemma Shutdown_idle_and_fresh_witness :
  Server.Shutdown Samples.calmEnv (Server.set_listener Samples.fresh None) []
  = ((None, Server.set_listener Samples.fresh None), [])
  /\
  exists l,
    Server.listener Samples.fresh = Some l /\
    forall env t,
      let t2 := t ++ [EvListenerClose l] in
      Server.Shutdown env Samples.fresh t
      = match ListenerClose env l t2 with
        | Some e => ((Some e, Samples.fresh),
                     t2 ++ [EvLogError e "error during listener close"])
        | None => ((None, Server.set_listener Samples.fresh None), t2)
        end.
Proof.
  split.
  - apply (proj1 Shutdown_idle_and_fresh Samples.calmEnv Samples.fresh []
             (Server.set_listener Samples.fresh None) [EvListenerClose Samples.ln8080]).
    reflexivity.
  - apply (proj2 Shutdown_idle_and_fresh Samples.calmEnv ":8080"
             (Options.mkOptions false false 0%Z false) [] Samples.fresh
             [EvListenTCP ":8080"]).
    reflexivity.
Defined.

(** C5 as stated fails: on a controller fresh from [NewBaseServer] and never
    run, [Shutdown] calls the listener's close and sets the listener field to
    nil, after which [Run] is refused; and when that close fails, [Shutdown]
    returns the error instead of nil. *)
Lemma shutdown_before_run_has_effects :
  fst (Server.NewBaseServer Samples.calmEnv ":8080"
         (Options.mkOptions false false 0%Z false) []) = inl Samples.fresh /\
  let r := Server.Shutdown Samples.calmEnv Samples.fresh [] in
  snd r = [EvListenerClose Samples.ln8080] /\
  Server.listener Samples.fresh = Some Samples.ln8080 /\
  Server.listener (snd (fst r)) = None /\
  fst (fst (Server.Run Samples.calmEnv Samples.cancelled (snd (fst r)) []))
  = Some (Errorf "listener not initialised").
Proof.
  split; [reflexivity|]. cbv zeta. repeat split.
Qed.

(** C10.  When [Shutdown] returns nil the listener field is nil, so every later
    [Run] returns "listener not initialised" with no effect and leaves the
    receiver as it is, ready to refuse the next one.  The same holds after the
    shutdown deferred by [Run]: whatever that shutdown returned, the receiver
    [Run] leaves behind makes every later [Run] return an error without
    serving. *)
Theorem controller_is_single_use :
  (forall env s t s' t',
      Server.Shutdown env s t = ((None, s'), t') ->
      Server.listener s' = None /\
      forall env' ctx' t'',
        Server.Run env' ctx' s' t''
        = ((Some (Errorf "listener not initialised"), s'), t'')) /\
  (forall env ctx s t,
      let s' := snd (fst (Server.Run env ctx s t)) in
      forall env' ctx' t'',
        exists e, Server.Run env' ctx' s' t'' = ((Some e, s'), t'')).
Proof.
  split.
  - intros env s t s' t' H.
    destruct (Shutdown_nil_releases _ _ _ _ _ H) as [Hl _].
    split; [exact Hl|]. intros env' ctx' t''. apply Run_no_listener. exact Hl.
  - intros env ctx s t s' env' ctx' t''.
    destruct (Run_leaves_refusing_state env ctx s t) as [Hl|(l & srv & Hl & Hr)];
      fold s' in Hl.
    + eexists. apply Run_no_listener. exact Hl.
    + fold s' in Hr. eexists. eapply Run_already_running; eassumption.
Qed.

Lemma controller_is_single_use_witness :
  let s' := snd (fst (Server.Run Samples.calmEnv Samples.cancelled Samples.fresh [])) in
  Server.listener s' = None /\
  forall env' ctx' t'',
    Server.Run env' ctx' s' t'' = ((Some (Errorf "listener not initialised"), s'), t'').
Proof.
  cbv zeta.
  apply (proj1 controller_is_single_use Samples.calmEnv
           (Server.serving Samples.fresh Samples.ln8080)
           [EvLogInfo "Starting the HTTP server" None; EvServe Samples.ln8080;
            EvServerShutdown (Some Options.defaultGracefulTimeout); EvServerClose;
            EvLogInfo "Stopped the HTTP server" None]
           _
           [EvLogInfo "Starting the HTTP server" None; EvServe Samples.ln8080;
            EvServerShutdown (Some Options.defaultGracefulTimeout); EvServerClose;
            EvLogInfo "Stopped the HTTP server" None;
            EvServerShutdown None; EvServerClose]).
  reflexivity.
Defined.

(** ** Signal-driven cancellation *)

Section SignalFacts.

Import SignalContext.

Ltac fields :=
  cbn [signals notified buf closed once done watcher panicked calls waiting
       returned log] in *.

Lemma count_snoc {A} (p : A -> bool) (l : list A) (x : A) :
  count p (l ++ [x]) = count p l + (if p x then 1 else 0).
Proof.
  unfold count. rewrite filter_app, length_app. cbn.
  destruct (p x); reflexivity.
Qed.

Lemma count_pos_existsb {A} (p : A -> bool) (l : list A) :
  (0 <? count p l)%nat = existsb p l.
Proof.
  unfold count. induction l as [|x xs IH]; [reflexivity|].
  cbn [filter existsb]. destruct (p x); [reflexivity|exact IH].
Qed.

Lemma run_app a b st : run (a ++ b) st = run b (run a st).
Proof. unfold run. apply fold_left_app. Qed.

(** Between [signal.Reset] and [close(ch)] a signal changes nothing: the body
    of the once may be taken as one step. *)
Lemma deliver_after_reset sig k st :
  deliver sig (reset_signals k st) = reset_signals k st.
Proof. reflexivity. Qed.

Lemma Inv_init parentDone sigs : Inv (WithCancelOnSignal parentDone sigs).
Proof.
  split; [constructor|]; fields; try reflexivity; try discriminate.
  intros k [[H|[]]|[H|[]]]; discriminate H.
Qed.

Lemma Inv_wake st : Pre st -> Inv (wake st).
Proof.
  intros I. pose proof I as []. unfold wake. destruct (done st) eqn:Hd.
  - split; [constructor|]; fields; auto; try lia.
  - split; [exact I | rewrite Hd; discriminate].
Qed.

Lemma Pre_deliver sig st : Pre st -> Pre (deliver sig st).
Proof.
  intros I. pose proof I as []. unfold deliver.
  destruct (notified st) eqn:Hn; cbn [andb]; [|exact I].
  destruct (wants st sig); [|exact I].
  assert (Ho : once st = false)
    by (destruct (once st); [specialize (pre_notified0 eq_refl); congruence|reflexivity]).
  assert (Hc : closed st = false) by congruence.
  rewrite Hc.
  destruct (List.length (buf st) <? List.length (signals st))%nat.
  - constructor; fields; auto.
  - destruct (watcher st) eqn:Hw; try exact I.
    destruct (buf st); [|exact I].
    constructor; fields; auto. discriminate.
Qed.

Lemma Pre_watcher_step st : Pre st -> Pre (watcher_step st).
Proof.
  intros I. pose proof I as []. unfold watcher_step, set_watcher.
  destruct (watcher st) eqn:Hw.
  - destruct (buf st); [destruct (closed st)|]; constructor; fields; auto; discriminate.
  - destruct (buf st); [destruct (closed st)|]; constructor; fields; auto; discriminate.
  - constructor; fields; auto; try discriminate.
    + rewrite count_snoc. cbn. lia.
    + rewrite count_snoc. cbn. lia.
    + intros k [H|H]; apply in_app_or in H; destruct H as [H|[H|[]]];
        try discriminate H; apply pre_first0; auto.
  - exact I.
Qed.

Lemma Pre_parent_cancel st : Pre st -> Pre (parent_cancel st).
Proof. intros []. constructor; fields; auto. discriminate. Qed.

Lemma Pre_release st : Pre st -> Pre (release st).
Proof.
  intros I. pose proof I as []. unfold release, once_Do, close_ch, reset_signals.
  destruct (once st) eqn:Ho.
  - constructor; fields; rewrite ?Ho; auto; try lia.
  - assert (Hc : calls st = 0)
      by (symmetry in pre_once0; apply Nat.ltb_ge in pre_once0; lia).
    constructor; fields; rewrite ?Hc; auto; try lia.
    + rewrite pre_panicked0, pre_closed0. reflexivity.
    + rewrite !count_snoc. cbn. lia.
    + rewrite !count_snoc. cbn. lia.
    + intros k [H|H]; repeat (apply in_app_or in H; destruct H as [H|H]);
        cbn in H; repeat (destruct H as [H|H]); try discriminate H;
        try contradiction; try (inversion H; reflexivity);
        apply pre_first0; auto.
Qed.

Lemma Inv_step o st : Inv st -> Inv (step o st).
Proof.
  intros [I _]. unfold step. apply Inv_wake. destruct o.
  - apply Pre_deliver, I.
  - apply Pre_watcher_step, I.
  - apply Pre_parent_cancel, I.
  - apply Pre_release, I.
Qed.

Lemma Inv_run ops : forall st, Inv st -> Inv (run ops st).
Proof.
  induction ops as [|o ops IH]; intros st I; [exact I|].
  cbn. apply IH, Inv_step, I.
Qed.


Lemma calls_wake st : calls (wake st) = calls st.
Proof. unfold wake. destruct (done st); reflexivity. Qed.

Lemma calls_step o st :
  calls (step o st) = calls st + (if is_release o then 1 else 0).
Proof.
  unfold step. rewrite calls_wake. destruct o; cbn [is_release].
  - unfold deliver.
    destruct (notified st && wants st sig); [|lia].
    destruct (closed st); [cbn; lia|].
    destruct (_ <? _)%nat; [cbn; lia|].
    destruct (watcher st); try lia. destruct (buf st); cbn; lia.
  - unfold watcher_step, set_watcher.
    destruct (watcher st); try (destruct (buf st); [destruct (closed st)|]);
      cbn; lia.
  - cbn. lia.
  - unfold release, once_Do. destruct (once st); cbn; lia.
Qed.

Lemma calls_run ops : forall st,
  calls (run ops st) = calls st + count is_release ops.
Proof.
  induction ops as [|o ops IH]; intros st; [cbn; lia|].
  change (run (o :: ops) st) with (run ops (step o st)).
  rewrite IH, calls_step. unfold count. cbn [filter].
  destruct (is_release o); cbn [List.length]; lia.
Qed.

Lemma need_wake st : need (wake st) = need st /\ closed (wake st) = closed st.
Proof. unfold wake, need. destruct (done st) eqn:Hd; fields; rewrite ?Hd; auto. Qed.

(** Once the channel is closed, the goroutine is never blocked: each of its
    steps brings the context closer to done and nothing moves it away. *)
Lemma need_step o st :
  Inv st -> closed st = true ->
  closed (step o st) = true /\
  (need (step o st) + (if is_watcher_step o then 1 else 0)
   <= max (need st) (if is_watcher_step o then 1 else 0))%nat.
Proof.
  intros [I _] Hc. pose proof I as [].
  assert (Hn : notified st = false) by (apply pre_notified0; congruence).
  unfold step.
  destruct (need_wake (match o with
                       | Deliver sig => deliver sig st
                       | WatcherStep => watcher_step st
                       | ParentCancel => parent_cancel st
                       | Release => release st
                       end)) as [-> ->].
  destruct o; cbn [is_watcher_step].
  - unfold deliver. rewrite Hn. cbn [andb]. split; [exact Hc|lia].
  - unfold watcher_step, set_watcher, need. rewrite Hc.
    destruct (watcher st) eqn:Hw; try destruct (buf st); fields;
      rewrite ?Hw; destruct (done st) eqn:Hd; fields; rewrite ?Hd;
      split; auto; try lia.
  - unfold parent_cancel, need. fields. split; [exact Hc|lia].
  - unfold release, once_Do, need.
    assert (Ho : once st = true) by congruence. rewrite Ho. fields.
    split; [exact Hc|]. destruct (done st); lia.
Qed.

Lemma need_run more : forall st,
  Inv st -> closed st = true ->
  (need (run more st) + count is_watcher_step more
   <= max (need st) (count is_watcher_step more))%nat.
Proof.
  induction more as [|o more IH]; intros st I Hc; [cbn; lia|].
  change (run (o :: more) st) with (run more (step o st)).
  destruct (need_step o st I Hc) as [Hc' Hn].
  specialize (IH (step o st) (Inv_step o st I) Hc').
  unfold count in *. cbn [filter].
  destruct (is_watcher_step o); cbn [List.length] in *; lia.
Qed.

Lemma need_le_2 st : (need st <= 2)%nat.
Proof. unfold need. destruct (done st), (watcher st); lia. Qed.

Lemma need_0_done st : Inv st -> need st = 0 -> done st = true.
Proof.
  intros [[] _]. unfold need. destruct (done st); [reflexivity|].
  destruct (watcher st) eqn:Hw; try discriminate. intros _. apply pre_finished0.
  reflexivity.
Qed.

(** After a release call, two steps of the goroutine are all it takes. *)
Lemma released_then_done ops more st0 :
  Inv st0 -> calls st0 = 0 ->
  existsb is_release ops = true ->
  (2 <= count is_watcher_step more)%nat ->
  done (run more (run ops st0)) = true.
Proof.
  intros I0 Hc0 Hrel Hws.
  pose proof (Inv_run ops st0 I0) as I.
  assert (Hclosed : closed (run ops st0) = true).
  { destruct I as [[] _]. rewrite pre_closed0, pre_once0.
    apply Nat.ltb_lt. rewrite calls_run, Hc0.
    apply existsb_exists in Hrel. destruct Hrel as (o & Hin & Ho).
    unfold count. 
    assert (In o (filter is_release ops)) by (apply filter_In; auto).
    destruct (filter is_release ops); [contradiction|cbn; lia]. }
  apply need_0_done; [apply Inv_run, I|].
  pose proof (need_run more _ I Hclosed).
  pose proof (need_le_2 (run ops st0)). lia.
Qed.

End SignalFacts.

(** C8.  From the state [WithCancelOnSignal] sets up, under any interleaving of
    signal deliveries, goroutine steps, parent cancellation and release calls:
    nothing panics; the signals are reset once and the channel is closed once,
    both by release call number 0 and by no later one; a release call returns
    only when the child context is done; and once a release call has been made,
    two steps of the goroutine are enough for the context to be done and for
    every release call made so far or later to have returned, whether or not a
    signal was ever delivered. *)
Theorem release_is_idempotent_and_terminates :
  forall parentDone sigs ops,
    let st := SignalContext.run ops (SignalContext.WithCancelOnSignal parentDone sigs) in
    SignalContext.panicked st = false /\
    SignalContext.count SignalContext.is_close (SignalContext.log st)
    = (if existsb SignalContext.is_release ops then 1 else 0) /\
    SignalContext.count SignalContext.is_reset (SignalContext.log st)
    = (if existsb SignalContext.is_release ops then 1 else 0) /\
    (forall k, In (SignalContext.ChClose k) (SignalContext.log st) \/
               In (SignalContext.SigReset k) (SignalContext.log st) -> k = 0) /\
    SignalContext.calls st = SignalContext.count SignalContext.is_release ops /\
    SignalContext.calls st = SignalContext.waiting st + SignalContext.returned st /\
    ((0 < SignalContext.returned st)%nat -> SignalContext.done st = true) /\
    (forall more,
        existsb SignalContext.is_release ops = true ->
        (2 <= SignalContext.count SignalContext.is_watcher_step more)%nat ->
        let st' := SignalContext.run more st in
        SignalContext.done st' = true /\
        SignalContext.waiting st' = 0 /\
        SignalContext.returned st' = SignalContext.calls st' /\
        SignalContext.panicked st' = false).
Proof.
  intros parentDone sigs ops st.
  pose proof (Inv_run ops _ (Inv_init parentDone sigs)) as I. fold st in I.
  pose proof I as [[Hpan _ _ Honce Hcloses Hresets Hfirst Hsum Hret _] Hparked].
  assert (Hcalls : SignalContext.calls st
                   = SignalContext.count SignalContext.is_release ops).
  { unfold st. rewrite calls_run. reflexivity. }
  rewrite Hcalls, count_pos_existsb in Honce.
  assert (Hdone : forall more,
             existsb SignalContext.is_release ops = true ->
             (2 <= SignalContext.count SignalContext.is_watcher_step more)%nat ->
             SignalContext.done (SignalContext.run more st) = true).
  { intros more Hrel Hws. unfold st.
    apply released_then_done; auto using Inv_init. }
  repeat split.
  - exact Hpan.
  - rewrite <- Honce. exact Hcloses.
  - rewrite <- Honce. exact Hresets.
  - exact Hfirst.
  - exact Hcalls.
  - exact Hsum.
  - intros Hpos. destruct (SignalContext.done st) eqn:Hd; [reflexivity|].
    rewrite (Hret eq_refl) in Hpos. lia.
  - apply Hdone; assumption.
  - pose proof (Inv_run more _ I) as [_ Hparked']. apply Hparked', Hdone; assumption.
  - pose proof (Inv_run more _ I) as [[_ _ _ _ _ _ _ Hsum' _ _] Hparked'].
    rewrite Hsum', Hparked'; [reflexivity|]. apply Hdone; assumption.
  - pose proof (Inv_run more _ I) as [[Hpan' _ _ _ _ _ _ _ _ _] _]. exact Hpan'.
Qed.

Lemma release_is_idempotent_and_terminates_witness :
  let st' := SignalContext.run
               [SignalContext.WatcherStep; SignalContext.WatcherStep]
               (SignalContext.run
                  [SignalContext.Release; SignalContext.Release]
                  (SignalContext.WithCancelOnTermination false)) in
  SignalContext.done st' = true /\
  SignalContext.waiting st' = 0 /\
  SignalContext.returned st' = SignalContext.calls st' /\
  SignalContext.panicked st' = false.
Proof.
  apply (proj2 (proj2 (proj2 (proj2 (proj2 (proj2 (proj2
           (release_is_idempotent_and_terminates false
              [SignalContext.Interrupt; SignalContext.SIGTERM]
              [SignalContext.Release; SignalContext.Release])))))))
           [SignalContext.WatcherStep; SignalContext.WatcherStep]).
  - reflexivity.
  - cbn. lia.
Defined.

(** * Further properties of the code *)

(** ** Production helpers *)

(** X1.  [SetInProduction] sets the flag and hands back a closure that puts
    back the value the flag had before the call, whatever it holds by then.
    Two overrides undone in reverse order give back the first value; undone in
    the order they were made, they leave the first override in place. *)
Theorem SetInProduction_restores :
  forall v1 v2 g now,
    let p1 := Production.SetInProduction v1 g in
    let p2 := Production.SetInProduction v2 (fst p1) in
    Production.InProduction (fst p1) = v1 /\
    Production.InProduction (fst p2) = v2 /\
    snd p1 now = g /\
    snd p1 (snd p2 (fst p2)) = g /\
    snd p2 (snd p1 (fst p2)) = v1.
Proof. intros. repeat split. Qed.

(** X2.  When the endpoint splits into host and port, [EndpointToHostname]
    keeps the port and keeps the host unless it is one of the three wildcard
    spellings, which it replaces by the default host; with [useLocal] the host
    it returns is never a wildcard. *)
Theorem EndpointToHostname_keeps_port :
  forall net endpoint useLocal host port,
    Production.SplitHostPort net endpoint = inl (host, port) ->
    let wildcard := String.eqb host "::" || String.eqb host "0.0.0.0"
                    || String.eqb host "" in
    exists h,
      Production.EndpointToHostname net endpoint useLocal = (h ++ ":" ++ port)%string /\
      (wildcard = false -> h = host) /\
      (wildcard = true ->
       h = if useLocal then "localhost" else Production.Hostname net) /\
      (useLocal = true -> h <> "::" /\ h <> "0.0.0.0" /\ h <> "").
Proof.
  intros net endpoint useLocal host port Hsplit wildcard.
  unfold Production.EndpointToHostname. rewrite Hsplit. fold wildcard.
  destruct wildcard eqn:Hw.
  - eexists. split; [reflexivity|]. split; [discriminate|].
    split; [intros _; destruct useLocal; reflexivity|].
    intros ->. cbn. repeat split; discriminate.
  - exists host. split; [reflexivity|]. split; [reflexivity|].
    split; [discriminate|]. intros _.
    unfold wildcard in Hw.
    apply orb_false_elim in Hw. destruct Hw as [Hw H3].
    apply orb_false_elim in Hw. destruct Hw as [H1 H2].
    apply String.eqb_neq in H1, H2, H3. auto.
Qed.

Lemma EndpointToHostname_keeps_port_witness :
  Production.EndpointToHostname Samples2.wildcardNet "[::]:8080" true = "localhost:8080"
  /\ Production.EndpointToHostname Samples2.wildcardNet "10.0.0.5:80" false = "10.0.0.5:80".
Proof.
  split.
  - destruct (EndpointToHostname_keeps_port Samples2.wildcardNet "[::]:8080" true
                "::" "8080" eq_refl) as (h & -> & _ & Hh & _).
    rewrite (Hh eq_refl). reflexivity.
  - destruct (EndpointToHostname_keeps_port Samples2.wildcardNet "10.0.0.5:80" false
                "10.0.0.5" "80" eq_refl) as (h & -> & Hh & _).
    rewrite (Hh eq_refl). reflexivity.
Defined.

(** X3.  With [useLocal] the host name of the machine is never consulted: two
    platforms that split the endpoint and parse it as an IP alike give the same
    answer, whatever [os.Hostname] returns on each. *)
Theorem EndpointToHostname_local_ignores_hostname :
  forall net net' endpoint,
    Production.SplitHostPort net endpoint = Production.SplitHostPort net' endpoint ->
    Production.ParseIP net endpoint = Production.ParseIP net' endpoint ->
    Production.EndpointToHostname net endpoint true
    = Production.EndpointToHostname net' endpoint true.
Proof.
  intros net net' endpoint Hs Hp. unfold Production.EndpointToHostname.
  rewrite Hs, Hp. reflexivity.
Qed.

Lemma EndpointToHostname_local_ignores_hostname_witness :
  Production.EndpointToHostname Samples2.wildcardNet "0.0.0.0" true
  = Production.EndpointToHostname
      (Production.mkNet (inr (Errorf "no hostname"))
                        (Production.SplitHostPort Samples2.wildcardNet)
                        (Production.ParseIP Samples2.wildcardNet))
      "0.0.0.0" true.
Proof.
  apply (EndpointToHostname_local_ignores_hostname Samples2.wildcardNet
           (Production.mkNet (inr (Errorf "no hostname"))
                             (Production.SplitHostPort Samples2.wildcardNet)
                             (Production.ParseIP Samples2.wildcardNet))
           "0.0.0.0"); reflexivity.
Defined.



(** ** Jaeger exporter *)

Section JaegerFacts.

Import Jaeger.

Lemma join2_not_empty a b : join2 a b <> "".
Proof. unfold join2. destruct a; discriminate. Qed.

Lemma setJaegerOptionsEndpoint_cases env o :
  let o' := fst (setJaegerOptionsEndpoint env o) in
  ServiceName o' = ServiceName o /\
  ((Getenv env jaegerCollectorHostEnvKey <> "" /\
    AgentEndpoint o' = AgentEndpoint o /\
    CollectorEndpoint o'
    = httpURL env (join2 (Getenv env jaegerCollectorHostEnvKey) jaegerCollectorPort)
              jaegerCollectorPath) \/
   (Getenv env jaegerCollectorHostEnvKey = "" /\
    CollectorEndpoint o' = CollectorEndpoint o /\
    AgentEndpoint o'
    = join2 (if String.eqb (Getenv env jaegerAgentHostEnvKey) "" then "localhost"
             else Getenv env jaegerAgentHostEnvKey) jaegerAgentPort)).
Proof.
  unfold setJaegerOptionsEndpoint.
  destruct (String.eqb_spec (Getenv env jaegerCollectorHostEnvKey) "") as [Hc|Hc];
    cbn [negb].
  - destruct (String.eqb (Getenv env jaegerAgentHostEnvKey) ""); cbn;
      (split; [reflexivity|right; auto]).
  - cbn. split; [reflexivity|left; auto].
Qed.

Lemma newJaegerExporter_shape env :
  exists o ev,
    snd (newJaegerExporter env) = ev ++ [JNewExporter o] /\
    existsb is_register ev = false /\
    o = fst (setJaegerOptionsEndpoint env
               (mkJOptions (Getenv env jaegerServiceNameEnvKey) "" "")) /\
    fst (newJaegerExporter env)
    = match NewExporter env o with
      | inl e => (Some e, Some o, None)
      | inr err => (None, Some o, Some err)
      end.
Proof.
  unfold newJaegerExporter.
  destruct (setJaegerOptionsEndpoint env _) as [o ev2] eqn:Hset.
  exists o.
  exists ((if String.eqb (Getenv env jaegerServiceNameEnvKey) ""
           then [JLogInfo "JAEGER_SERVICE_NAME not defined, using default service name" []]
           else []) ++ ev2).
  assert (Hev2 : existsb is_register ev2 = false).
  { unfold setJaegerOptionsEndpoint in Hset.
    destruct (negb (String.eqb (Getenv env jaegerCollectorHostEnvKey) ""));
      [inversion Hset; reflexivity|].
    destruct (negb (String.eqb (Getenv env jaegerAgentHostEnvKey) ""));
      inversion Hset; reflexivity. }
  destruct (NewExporter env o); cbn [fst snd];
    (split; [rewrite app_assoc; reflexivity|]);
    (split; [rewrite existsb_app, Hev2;
             destruct (String.eqb (Getenv env jaegerServiceNameEnvKey) ""); reflexivity|]);
    split; reflexivity.
Qed.

End JaegerFacts.

(** X5.  The options the default factory hands to [ocjaeger.NewExporter]
    carry the service name of the environment and exactly one endpoint: the
    collector URL when JAEGER_COLLECTOR_HOST is set, even if JAEGER_AGENT_HOST
    is set too, and otherwise the agent endpoint, on localhost when
    JAEGER_AGENT_HOST is not set.  The other endpoint stays empty. *)
Theorem newJaegerExporter_one_endpoint :
  forall env,
    exists o ev,
      snd (Jaeger.newJaegerExporter env) = ev ++ [Jaeger.JNewExporter o] /\
      Jaeger.ServiceName o = Jaeger.Getenv env "JAEGER_SERVICE_NAME" /\
      (if String.eqb (Jaeger.Getenv env "JAEGER_COLLECTOR_HOST") ""
       then Jaeger.CollectorEndpoint o = "" /\
            Jaeger.AgentEndpoint o <> "" /\
            Jaeger.AgentEndpoint o
            = ((if String.eqb (Jaeger.Getenv env "JAEGER_AGENT_HOST") "" then "localhost"
                else Jaeger.Getenv env "JAEGER_AGENT_HOST") ++ ":6831")%string
       else Jaeger.AgentEndpoint o = "" /\
            Jaeger.CollectorEndpoint o
            = ("http://"
                 ++ Jaeger.escapeHost env
                      (Jaeger.Getenv env "JAEGER_COLLECTOR_HOST" ++ ":14268")
                 ++ "/api/traces")%string).
Proof.
  intros env.
  destruct (newJaegerExporter_shape env) as (o & ev & Hev & _ & Ho & _).
  exists o, ev. split; [exact Hev|].
  pose proof (setJaegerOptionsEndpoint_cases env
                (Jaeger.mkJOptions (Jaeger.Getenv env Jaeger.jaegerServiceNameEnvKey) "" ""))
    as [Hname Hcases].
  cbv zeta in Hname, Hcases. rewrite <- Ho in Hname, Hcases.
  split; [exact Hname|].
  change Jaeger.jaegerCollectorHostEnvKey with "JAEGER_COLLECTOR_HOST" in Hcases.
  change Jaeger.jaegerAgentHostEnvKey with "JAEGER_AGENT_HOST" in Hcases.
  destruct Hcases as [(Hc & Ha & Hcol) | (Hc & Hcol & Ha)].
  - apply String.eqb_neq in Hc. rewrite Hc. split; [exact Ha|exact Hcol].
  - rewrite Hc. cbn [String.eqb]. split; [exact Hcol|]. split.
    + rewrite Ha. apply join2_not_empty.
    + exact Ha.
Qed.

(** X6.  With no custom function, [RegisterJaegerExporter] returns an error
    exactly when [ocjaeger.NewExporter] fails, and it is that error; the
    exporter is registered once when the call succeeds and never when it
    fails. *)
Theorem RegisterJaegerExporter_default :
  forall env,
    let r := Jaeger.RegisterJaegerExporter env (Jaeger.mkJaegerRegisterOptions None None) in
    exists o ev,
      snd (Jaeger.newJaegerExporter env) = ev ++ [Jaeger.JNewExporter o] /\
      match Jaeger.NewExporter env o with
      | inl e =>
          fst r = Jaeger.Returned None /\
          filter Jaeger.is_register (snd r) = [Jaeger.JRegisterExporter (Some e)]
      | inr err =>
          fst r = Jaeger.Returned (Some err) /\
          filter Jaeger.is_register (snd r) = []
      end.
Proof.
  intros env r.
  destruct (newJaegerExporter_shape env) as (o & ev & Hev & Hnoreg & _ & Hres).
  exists o, ev. split; [exact Hev|].
  assert (Hf : filter Jaeger.is_register ev = []).
  { clear - Hnoreg. induction ev as [|x xs IH]; [reflexivity|].
    cbn in *. destruct (Jaeger.is_register x); [discriminate|]. apply IH, Hnoreg. }
  subst r. unfold Jaeger.RegisterJaegerExporter.
  cbn [Jaeger.setJaegerRegisterOptionsDefault Jaeger.NewJaegerExporter
       Jaeger.RegisterExporter].
  destruct (Jaeger.newJaegerExporter env) as [[[ex op] er] evs].
  cbn [fst snd] in Hev, Hres. subst evs.
  destruct (Jaeger.NewExporter env o) as [e|err]; inversion Hres; subst; cbn [fst snd].
  - split; [reflexivity|].
    rewrite !filter_app, Hf. reflexivity.
  - split; [reflexivity|].
    rewrite !filter_app, Hf. reflexivity.
Qed.

(** X7.  [RegisterJaegerExporter] panics exactly when a custom factory hands
    back a nil options pointer together with a nil error; the exporter has
    been passed to the register function by then.  The default factory never
    does that. *)
Theorem RegisterJaegerExporter_panics_iff :
  forall env r,
    (fst (Jaeger.RegisterJaegerExporter env r) = Jaeger.Panicked <->
     exists exporter ev,
       Jaeger.NewJaegerExporter r = Some ((exporter, None, None), ev)) /\
    (forall exporter ev,
        Jaeger.NewJaegerExporter r = Some ((exporter, None, None), ev) ->
        snd (Jaeger.RegisterJaegerExporter env r)
        = ev ++ match Jaeger.RegisterExporter r with
                | Some registerFn => registerFn exporter
                | None => [Jaeger.JRegisterExporter exporter]
                end).
Proof.
  intros env [newFn regFn]. unfold Jaeger.RegisterJaegerExporter.
  cbn [Jaeger.NewJaegerExporter Jaeger.RegisterExporter].
  destruct newFn as [[[[ex op] er] ev]|].
  - assert (Hdef : forall reg,
               Jaeger.setJaegerRegisterOptionsDefault env
                 (Jaeger.mkJaegerRegisterOptions (Some (ex, op, er, ev)) reg)
               = Jaeger.mkJaegerRegisterOptions (Some (ex, op, er, ev))
                   (Some match reg with
                         | Some f => f
                         | None => Jaeger.octrace_RegisterExporter
                         end))
      by (intros [f|]; reflexivity).
    rewrite Hdef. cbn [Jaeger.NewJaegerExporter Jaeger.RegisterExporter].
    destruct er as [e|]; [|destruct op as [o|]]; cbn [fst snd].
    + split; [split; [discriminate|intros (x & y & H); inversion H]|].
      intros x y H; inversion H.
    + split; [split; [discriminate|intros (x & y & H); inversion H]|].
      intros x y H; inversion H.
    + split; [split; [eauto|reflexivity]|].
      intros x y H; inversion H; subst. destruct regFn; reflexivity.
  - split.
    + split; [|intros (x & y & H); discriminate H].
      intros H. exfalso. revert H.
      destruct (newJaegerExporter_shape env) as (o & ev & _ & _ & _ & Hres).
      assert (Hdef : Jaeger.setJaegerRegisterOptionsDefault env
                       (Jaeger.mkJaegerRegisterOptions None regFn)
                     = Jaeger.mkJaegerRegisterOptions
                         (Some (Jaeger.newJaegerExporter env))
                         (Some match regFn with
                               | Some f => f
                               | None => Jaeger.octrace_RegisterExporter
                               end))
        by (destruct regFn; reflexivity).
      rewrite Hdef. cbn [Jaeger.NewJaegerExporter Jaeger.RegisterExporter].
      destruct (Jaeger.newJaegerExporter env) as [[[ex op] er] evs].
      cbn [fst] in Hres.
      destruct (Jaeger.NewExporter env o); inversion Hres; subst; discriminate.
    + intros x y H; discriminate H.
Qed.

Lemma RegisterJaegerExporter_panics_iff_witness :
  Jaeger.RegisterJaegerExporter Samples2.collectorEnv
    (Jaeger.mkJaegerRegisterOptions (Some Samples2.noOptionsFn) None)
  = (Jaeger.Panicked, [Jaeger.JRegisterExporter (Some (Jaeger.mkExporter 7))]).
Proof.
  pose proof (RegisterJaegerExporter_panics_iff Samples2.collectorEnv
                (Jaeger.mkJaegerRegisterOptions (Some Samples2.noOptionsFn) None))
    as [[_ Hp] Hev].
  apply injective_projections.
  - apply Hp. eexists. eexists. reflexivity.
  - apply (Hev (Some (Jaeger.mkExporter 7)) []). reflexivity.
Defined.

(** X8.  A failing factory, custom or default, keeps the register function
    from being called: the error is returned and the only thing added to what
    the factory did is one log line carrying the error's text. *)
Theorem RegisterJaegerExporter_failure_skips_registration :
  forall env r exporter options e ev,
    match Jaeger.NewJaegerExporter r with
    | Some f => f
    | None => Jaeger.newJaegerExporter env
    end = ((exporter, options, Some e), ev) ->
    Jaeger.RegisterJaegerExporter env r
    = (Jaeger.Returned (Some e),
       ev ++ [Jaeger.JLogInfo "Failed to retrieve Jaeger tracing exporter"
                              [("error", Jaeger.Error e)]]).
Proof.
  intros env [newFn regFn] exporter options e ev H.
  unfold Jaeger.RegisterJaegerExporter, Jaeger.setJaegerRegisterOptionsDefault.
  cbn [Jaeger.NewJaegerExporter Jaeger.RegisterExporter] in *.
  destruct newFn as [f|]; destruct regFn as [g|];
    cbn [Jaeger.NewJaegerExporter Jaeger.RegisterExporter];
    rewrite H; reflexivity.
Qed.

Lemma RegisterJaegerExporter_failure_skips_registration_witness :
  fst (Jaeger.RegisterJaegerExporter Samples2.bareEnv
         (Jaeger.mkJaegerRegisterOptions None None))
  = Jaeger.Returned (Some (Errorf "dial udp: lookup failed")).
Proof.
  rewrite (RegisterJaegerExporter_failure_skips_registration Samples2.bareEnv
             (Jaeger.mkJaegerRegisterOptions None None) None
             (Some (Jaeger.mkJOptions "" "localhost:6831" ""))
             (Errorf "dial udp: lookup failed")
             [Jaeger.JLogInfo "JAEGER_SERVICE_NAME not defined, using default service name" [];
              Jaeger.JLogInfo "JAEGER_COLLECTOR_HOST not defined, using the agent endpoint instead." [];
              Jaeger.JLogInfo "JAEGER_AGENT_HOST not defined, using default agent host" [];
              Jaeger.JNewExporter (Jaeger.mkJOptions "" "localhost:6831" "")]
             eq_refl).
  reflexivity.
Defined.

(** ** Logger level *)

Lemma wrap_small bits z :
  (0 < bits)%Z ->
  (- 2 ^ (bits - 1) <= z < 2 ^ (bits - 1))%Z -> Logger.wrap bits z = z.
Proof.
  intros Hb Hz. unfold Logger.wrap.
  assert (Hp : (2 ^ bits = 2 * 2 ^ (bits - 1))%Z).
  { replace bits with (Z.succ (bits - 1)) at 1 by lia. apply Z.pow_succ_r. lia. }
  rewrite Z.mod_small; lia.
Qed.

Lemma wrap_top bits :
  (0 < bits)%Z -> Logger.wrap bits (2 ^ (bits - 1)) = (- 2 ^ (bits - 1))%Z.
Proof.
  intros Hb. unfold Logger.wrap.
  assert (Hp : (2 ^ bits = 2 * 2 ^ (bits - 1))%Z).
  { replace bits with (Z.succ (bits - 1)) at 1 by lia. apply Z.pow_succ_r. lia. }
  replace (2 ^ (bits - 1) + 2 ^ (bits - 1))%Z with (2 ^ bits)%Z by lia.
  rewrite Z.mod_same; [lia|].
  pose proof (Z.pow_pos_nonneg 2 (bits - 1)). lia.
Qed.

Lemma wrap8_small z : (-128 <= z <= 127)%Z -> Logger.wrap 8 z = z.
Proof.
  intros Hz. apply wrap_small; [lia|].
  change (2 ^ (8 - 1))%Z with 128%Z. lia.
Qed.

(** X9.  When USGO_LOG_LEVEL, lower-cased, is none of the four level names:
    a value [strconv.Atoi] rejects gives the default level; a number [n]
    gives the level [-n] cut to the int8 range, so 17 gives -17 and anything
    from 128 up gives -128.  The smallest [int] is the exception: negating it
    overflows, and the level is -128 where every other negative number below
    -126 gives 127. *)
Theorem getLoggerLevel_numeric :
  forall env (d : Logger.Level),
    let s := Logger.ToLower env (Logger.Getenv env "USGO_LOG_LEVEL") in
    Logger.named s = false ->
    (8 < Logger.IntSize env)%Z ->
    (forall err, Logger.Atoi env s = inr err -> Logger.getLoggerLevel env d = d) /\
    (forall n,
        Logger.Atoi env s = inl n ->
        (- 2 ^ (Logger.IntSize env - 1) <= n < 2 ^ (Logger.IntSize env - 1))%Z ->
        Logger.getLoggerLevel env d
        = if (n =? - 2 ^ (Logger.IntSize env - 1))%Z then (-128)%Z
          else Z.max (-128) (Z.min 127 (- n))).
Proof.
  intros env d s Hnamed Hsize.
  assert (Hunfold : Logger.getLoggerLevel env d
                    = match Logger.Atoi env s with
                      | inl lvl =>
                          let c := Logger.wrap (Logger.IntSize env) (-1 * lvl) in
                          let c := if (c >=? Logger.MaxInt8)%Z then Logger.MaxInt8 else c in
                          let c := if (c <=? Logger.MinInt8)%Z then Logger.MinInt8 else c in
                          Logger.wrap 8 c
                      | inr _ => d
                      end).
  { unfold Logger.getLoggerLevel. fold s. unfold Logger.named in Hnamed.
    apply orb_false_elim in Hnamed. destruct Hnamed as [Hn H4].
    apply orb_false_elim in Hn. destruct Hn as [Hn H3].
    apply orb_false_elim in Hn. destruct Hn as [H1 H2].
    change Logger.LogLevelEnvironmentVariable with "USGO_LOG_LEVEL".
    fold s. rewrite H1, H2, H3, H4. reflexivity. }
  rewrite Hunfold. split.
  - intros err ->. reflexivity.
  - intros n -> Hn. cbv zeta. unfold Logger.MaxInt8, Logger.MinInt8.
    assert (Hbig : (2 ^ 8 <= 2 ^ (Logger.IntSize env - 1))%Z)
      by (apply Z.pow_le_mono_r; lia).
    change (2 ^ 8)%Z with 256%Z in Hbig.
    destruct (Z.eqb_spec n (- 2 ^ (Logger.IntSize env - 1))) as [->|Hne].
    + replace (-1 * - 2 ^ (Logger.IntSize env - 1))%Z
        with (2 ^ (Logger.IntSize env - 1))%Z by lia.
      rewrite wrap_top by lia.
      destruct (Z.geb_spec (- 2 ^ (Logger.IntSize env - 1)) 127); [lia|].
      destruct (Z.leb_spec (- 2 ^ (Logger.IntSize env - 1)) (-128)); [|lia].
      rewrite wrap8_small by lia. reflexivity.
    + rewrite (wrap_small (Logger.IntSize env)) by lia.
      destruct (Z.geb_spec (-1 * n) 127).
      * destruct (Z.leb_spec 127 (-128)); [lia|].
        rewrite wrap8_small by lia. lia.
      * destruct (Z.leb_spec (-1 * n) (-128)).
        -- rewrite wrap8_small by lia. lia.
        -- rewrite wrap8_small by lia. lia.
Qed.

Lemma getLoggerLevel_numeric_witness :
  Logger.getLoggerLevel Samples2.level17 Logger.ProductionLoggerDefaultLevel = (-17)%Z.
Proof.
  rewrite (proj2 (getLoggerLevel_numeric Samples2.level17
                    Logger.ProductionLoggerDefaultLevel eq_refl eq_refl) 17%Z eq_refl).
  - reflexivity.
  - cbn. lia.
Defined.

(** ** Prometheus exporter *)

(** X10.  [NewPrometheusExporter] returns either an exporter or an error,
    never both and never neither, and the error is the one of
    [ocprometheus.NewExporter].  When that call fails, neither the exporter nor
    any view is registered. *)
Theorem NewPrometheusExporter_result :
  forall env views,
    let registry := match Metrics.DefaultRegisterer env with
                    | Some r => r
                    | None => Some (Metrics.NewRegistry env)
                    end in
    let r := Metrics.NewPrometheusExporter env views in
    match Metrics.NewExporter env registry with
    | inl e => fst r = (Some e, None)
    | inr err => fst r = (None, Some err) /\ existsb Metrics.registers (snd r) = false
    end.
Proof.
  intros env views registry r. subst r registry.
  unfold Metrics.NewPrometheusExporter, Metrics.NewPrometheusExporterFromRegistry.
  destruct (Metrics.DefaultRegisterer env) as [reg|].
  - destruct (Metrics.NewExporter env reg) as [e|err].
    + destruct (Metrics.view_Register env _); reflexivity.
    + split; reflexivity.
  - destruct (Metrics.NewExporter env (Some (Metrics.NewRegistry env))) as [e|err].
    + destruct (Metrics.view_Register env _); reflexivity.
    + split; reflexivity.
Qed.

(** X11.  When the exporter can be built, [NewPrometheusExporterFromRegistry]
    registers it and then registers the caller's views followed by
    [LogCountView], in one call; a failure of that call is logged and not
    returned. *)
Theorem NewPrometheusExporterFromRegistry_views :
  forall env registry views e,
    Metrics.NewExporter env registry = inl e ->
    let r := Metrics.NewPrometheusExporterFromRegistry env registry views in
    fst r = (Some e, None) /\
    filter Metrics.registers (snd r)
    = [Metrics.MRegisterExporter e;
       Metrics.MRegisterViews (views ++ [Metrics.LogCountView])] /\
    (forall err,
        Metrics.view_Register env (views ++ [Metrics.LogCountView]) = Some err ->
        In (Metrics.MLogError err "Failed to register views") (snd r)).
Proof.
  intros env registry views e He r. subst r.
  unfold Metrics.NewPrometheusExporterFromRegistry. rewrite He.
  destruct (Metrics.view_Register env (views ++ [Metrics.LogCountView])) as [err|].
  - split; [reflexivity|]. split; [reflexivity|].
    intros err' H. inversion H; subst. cbn. tauto.
  - split; [reflexivity|]. split; [reflexivity|]. discriminate.
Qed.

Lemma NewPrometheusExporterFromRegistry_views_witness :
  fst (Metrics.NewPrometheusExporterFromRegistry Samples2.brokenViews
         (Some (Metrics.mkRegistry 5)) [Metrics.mkView "requests"])
  = (Some (Metrics.mkPExporter (Some (Metrics.mkRegistry 5))), None).
Proof.
  apply (NewPrometheusExporterFromRegistry_views Samples2.brokenViews
           (Some (Metrics.mkRegistry 5)) [Metrics.mkView "requests"]
           (Metrics.mkPExporter (Some (Metrics.mkRegistry 5))) eq_refl).
Defined.

(** ** The controller over time *)

Section LifecycleFacts.

Import Server Lifecycle.

Lemma serves_app a b : serves (a ++ b) = (serves a + serves b)%nat.
Proof. unfold serves. rewrite filter_app, length_app. reflexivity. Qed.

Lemma quiet_serves ext : forallb is_log ext = true -> serves ext = 0%nat.
Proof.
  unfold serves. induction ext as [|e ext IH]; [reflexivity|].
  cbn [forallb filter]. intros H. apply andb_prop in H. destruct H as [He Hext].
  destruct e; try discriminate He. cbn. apply IH, Hext.
Qed.

Lemma walkRoute_quiet s :
  forall r t, exists ext,
      snd (Mux.walkRoute (logRoute s) r t) = t ++ ext /\ forallb is_log ext = true.
Proof.
  induction r as [tpl m h subs IH] using Mux.Route_nested_ind.
  intros t. rewrite walkRoute_eq. destruct tpl as [tpl|].
  - rewrite logRoute_line.
    assert (Hsubs : forall t1, exists ext,
                 snd (Mux.walkRoutes (logRoute s) subs t1) = t1 ++ ext /\
                 forallb is_log ext = true).
    { induction subs as [|x xs IHxs]; intros t1.
      - exists []. cbn. rewrite app_nil_r. auto.
      - inversion IH as [|? ? Px Pxs]; subst.
        rewrite walkRoutes_cons. destruct (Px t1) as (e1 & H1 & Q1).
        destruct (Mux.walkRoute (logRoute s) x t1) as [[e|] t2]; cbn [snd] in H1; subst t2.
        + exists e1. auto.
        + destruct (IHxs Pxs (t1 ++ e1)) as (e2 & H2 & Q2).
          exists (e1 ++ e2). rewrite H2, app_assoc, forallb_app, Q1, Q2. auto. }
    destruct (Hsubs (t ++ [EvLogInfo ("Exposed Route: `" ++ GetServerURL s ++ tpl ++ "`") m]))
      as (ext & Hext & Q).
    exists (EvLogInfo ("Exposed Route: `" ++ GetServerURL s ++ tpl ++ "`") m :: ext).
    rewrite Hext, <- app_assoc. cbn. auto.
  - exists []. cbn. rewrite app_nil_r. auto.
Qed.

Lemma Walk_quiet s rt t :
  exists ext, snd (Mux.Walk rt (logRoute s) t) = t ++ ext /\ forallb is_log ext = true.
Proof.
  unfold Mux.Walk. generalize (Mux.routes rt). intros l. revert t.
  induction l as [|x xs IH]; intros t.
  - exists []. cbn. rewrite app_nil_r. auto.
  - rewrite walkRoutes_cons. destruct (walkRoute_quiet s x t) as (e1 & H1 & Q1).
    destruct (Mux.walkRoute (logRoute s) x t) as [[e|] t2]; cbn [snd] in H1; subst t2.
    + exists e1. auto.
    + destruct (IH (t ++ e1)) as (e2 & H2 & Q2).
      exists (e1 ++ e2). rewrite H2, app_assoc, forallb_app, Q1, Q2. auto.
Qed.

(** What [Shutdown] adds to the trace never starts a serve loop, and holds a
    close of the listener only when no server is running. *)
Lemma Shutdown_adds env s t :
  exists ext,
    snd (Shutdown env s t) = t ++ ext /\
    serves ext = 0%nat /\
    (runningServer s <> None -> filter is_listener_close ext = []).
Proof.
  destruct (runningServer s) as [srv|] eqn:Hr.
  - rewrite (Shutdown_running env s srv t Hr). cbv zeta.
    destruct (ServerShutdown env _).
    + eexists. cbn [snd]. rewrite <- app_assoc. split; [reflexivity|]. split; reflexivity.
    + destruct (ServerClose env _); eexists; cbn [snd]; rewrite <- ?app_assoc;
        (split; [reflexivity|]); split; reflexivity.
  - destruct (listener s) as [l|] eqn:Hl.
    + rewrite (Shutdown_listener_only env s l t Hr Hl). cbv zeta.
      destruct (ListenerClose env l _); eexists; cbn [snd]; rewrite <- ?app_assoc;
        (split; [reflexivity|]); (split; [reflexivity|]); intros H; contradiction.
    + rewrite (Shutdown_released env s t Hr Hl). exists []. cbn.
      rewrite app_nil_r. split; [reflexivity|]. split; [reflexivity|].
      intros H; contradiction.
Qed.

Lemma RunServer_adds env ctx srv l d t :
  exists ext,
    snd (AdvServer.RunServer env ctx srv l d t) = t ++ EvServe l :: ext /\
    serves ext = 0%nat.
Proof.
  unfold AdvServer.RunServer, AdvServer.waiter. run_go.
  destruct (ctx (t ++ [EvServe l])); cbn [snd].
  - exists [EvServerShutdown (Some d); EvServerClose].
    rewrite <- !app_assoc. split; reflexivity.
  - exists []. split; reflexivity.
Qed.

(** The serve loop's result and trace do not depend on how the waiter's
    shutdown and close turn out. *)
Lemma RunServer_serve_only env env' ctx srv l d t :
  (forall h, Serve env l h = Serve env' l h) ->
  AdvServer.RunServer env ctx srv l d t = AdvServer.RunServer env' ctx srv l d t.
Proof.
  intros Hs. unfold AdvServer.RunServer, AdvServer.waiter. run_go.
  destruct (ctx (t ++ [EvServe l])); cbn [fst snd]; rewrite Hs; reflexivity.
Qed.

Lemma Run_started_serves env ctx s l t :
  listener s = Some l -> runningServer s = None ->
  serves (snd (Run env ctx s t)) = S (serves t) /\
  refusing (snd (fst (Run env ctx s t))) = true.
Proof.
  intros Hl Hr. split.
  - rewrite (Run_started env ctx s l t Hl Hr). cbv zeta. cbn [snd].
    match goal with |- context [Shutdown env ?a ?b] =>
      destruct (Shutdown_adds env a b) as (e3 & -> & Q3 & _) end.
    match goal with |- context [AdvServer.RunServer env ctx ?srv l ?d ?tw] =>
      destruct (RunServer_adds env ctx srv l d tw) as (e2 & -> & Q2);
      generalize (fst (AdvServer.RunServer env ctx srv l d tw)) end.
    intros res.
    match goal with |- context [Mux.Walk ?rt ?f ?t0] =>
      destruct (Walk_quiet (serving s l) rt t0) as (e1 & -> & Q1) end.
    apply quiet_serves in Q1.
    destruct res; rewrite !serves_app, Q1, Q3; cbn [serves]; unfold serves at 2 3 4;
      cbn; fold (serves e2); rewrite Q2; lia.
  - pose proof (Run_leaves_refusing_state env ctx s t) as H. cbv zeta in H.
    unfold refusing.
    destruct H as [-> | (l' & srv & -> & ->)]; reflexivity.
Qed.

Lemma perform_potential c s t :
  let r := perform c s t in
  (serves (snd r) + (if refusing (snd (fst r)) then 0 else 1)
   <= serves t + (if refusing s then 0 else 1))%nat.
Proof.
  cbv zeta. destruct c as [env ctx|env]; cbn [perform].
  - destruct (listener s) as [l|] eqn:Hl.
    + destruct (runningServer s) as [srv|] eqn:Hr.
      * rewrite (Run_already_running env ctx s l srv t Hl Hr). cbn [fst snd]. lia.
      * destruct (Run_started_serves env ctx s l t Hl Hr) as [-> ->].
        unfold refusing. rewrite Hl, Hr. lia.
    + rewrite (Run_no_listener env ctx s t Hl). cbn [fst snd]. lia.
  - destruct (Shutdown_adds env s t) as (ext & Hext & Q & _).
    rewrite Hext, serves_app, Q.
    destruct (Shutdown env s t) as [[[e|] s'] t'] eqn:Hsd; cbn [fst snd].
    + apply Shutdown_error_keeps in Hsd. subst s'. lia.
    + apply Shutdown_nil_releases in Hsd. destruct Hsd as [Hl' Hr'].
      unfold refusing at 1. rewrite Hl'. destruct (refusing s); lia.
Qed.

Lemma performAll_potential cs : forall s t,
  (serves (snd (performAll cs s t))
   <= serves t + (if refusing s then 0 else 1))%nat.
Proof.
  induction cs as [|c cs IH]; intros s t.
  - cbn [performAll]. unfold ret. cbn [snd]. destruct (refusing s); lia.
  - cbn [performAll]. unfold bind at 1.
    pose proof (perform_potential c s t) as Hp. cbv zeta in Hp.
    destruct (perform c s t) as [r t1]. cbn [fst snd] in Hp.
    unfold bind at 1. specialize (IH (snd r) t1).
    destruct (performAll cs (snd r) t1) as [rs t2]. cbn [fst snd] in *.
    unfold ret. cbn [snd].
    destruct (refusing (snd r)); lia.
Qed.

End LifecycleFacts.

(** X12.  A controller starts a serve loop at most once in its life: over any
    sequence of [Run] and [Shutdown] calls, in any worlds, at most one serve
    loop is started, and none at all on a controller that has no listener or
    already holds a running server. *)
Theorem controller_serves_at_most_once :
  forall cs (s : Server.httpServer) t,
    (Lifecycle.serves (snd (Lifecycle.performAll cs s t))
     <= Lifecycle.serves t + 1)%nat /\
    (Lifecycle.refusing s = true ->
     Lifecycle.serves (snd (Lifecycle.performAll cs s t)) <= Lifecycle.serves t)%nat.
Proof.
  intros cs s t. pose proof (performAll_potential cs s t) as H.
  split.
  - destruct (Lifecycle.refusing s); lia.
  - intros Hr. rewrite Hr in H. lia.
Qed.

Lemma controller_serves_at_most_once_witness :
  (Lifecycle.serves
     (snd (Lifecycle.performAll
             [Lifecycle.CallRun Samples.calmEnv Samples.cancelled;
              Lifecycle.CallRun Samples.calmEnv Samples.cancelled]
             (Server.set_listener Samples.fresh None) [])) <= 0)%nat.
Proof.
  apply (proj2 (controller_serves_at_most_once
                  [Lifecycle.CallRun Samples.calmEnv Samples.cancelled;
                   Lifecycle.CallRun Samples.calmEnv Samples.cancelled]
                  (Server.set_listener Samples.fresh None) [])).
  reflexivity.
Defined.

(** X13.  What [Run] returns depends on the serve loop alone: two worlds whose
    serve loops end alike give the same result, however differently the
    shutdown and close calls turn out in them.  In particular the error of the
    deferred [Shutdown] is never returned. *)
Theorem Run_result_ignores_shutdown :
  forall env env' ctx (s : Server.httpServer) t,
    (forall l h, Serve env l h = Serve env' l h) ->
    fst (fst (Server.Run env ctx s t)) = fst (fst (Server.Run env' ctx s t)).
Proof.
  intros env env' ctx s t Hs.
  destruct (Server.listener s) as [l|] eqn:Hl.
  - destruct (Server.runningServer s) as [srv|] eqn:Hr.
    + rewrite !(Run_already_running _ ctx s l srv t Hl Hr). reflexivity.
    + rewrite !(Run_started _ ctx s l t Hl Hr). cbv zeta. cbn [fst].
      rewrite (RunServer_serve_only env env'); [reflexivity|]. apply Hs.
  - rewrite !(Run_no_listener _ ctx s t Hl). reflexivity.
Qed.

Lemma Run_result_ignores_shutdown_witness :
  fst (fst (Server.Run Samples.calmEnv Samples.cancelled Samples.fresh []))
  = fst (fst (Server.Run Samples.shutdownFailsEnv Samples.cancelled Samples.fresh [])).
Proof.
  apply (Run_result_ignores_shutdown Samples.calmEnv Samples.shutdownFailsEnv
           Samples.cancelled Samples.fresh []).
  intros l h. reflexivity.
Defined.

(** X14.  A [Run] that passes its checks never leaves the controller half
    released: afterwards it holds neither listener nor running server, or it
    holds both exactly as they were while serving. *)
Theorem Run_releases_all_or_nothing :
  forall env ctx (s : Server.httpServer) l t,
    Server.listener s = Some l ->
    Server.runningServer s = None ->
    let s' := snd (fst (Server.Run env ctx s t)) in
    (Server.listener s' = None /\ Server.runningServer s' = None) \/
    s' = Server.serving s l.
Proof.
  intros env ctx s l t Hl Hr s'. subst s'.
  rewrite (Run_started env ctx s l t Hl Hr). cbv zeta. cbn [fst snd].
  match goal with |- context [Server.Shutdown env ?a ?b] =>
    destruct (Server.Shutdown env a b) as [[[e|] s2] t2] eqn:Hsd end; cbn [fst snd].
  - right. eapply Shutdown_error_keeps. exact Hsd.
  - left. eapply Shutdown_nil_releases. exact Hsd.
Qed.

Lemma Run_releases_all_or_nothing_witness :
  snd (fst (Server.Run Samples.shutdownFailsEnv Samples.cancelled Samples.fresh []))
  = Server.serving Samples.fresh Samples.ln8080.
Proof.
  destruct (Run_releases_all_or_nothing Samples.shutdownFailsEnv Samples.cancelled
              Samples.fresh Samples.ln8080 [] eq_refl eq_refl) as [[H _]|H].
  - discriminate H.
  - exact H.
Defined.

(** X15.  When every route has a path template, [Run] logs the start, then one
    line per route in walk order, subrouters included, and only then starts the
    serve loop; the "Stopped" line comes after it. *)
Theorem Run_logs_routes_before_serving :
  forall env ctx (s : Server.httpServer) l t,
    Server.listener s = Some l ->
    Server.runningServer s = None ->
    forallb Mux.templated (Mux.routes (Server.router s)) = true ->
    exists rest,
      snd (Server.Run env ctx s t)
      = t ++ [EvLogInfo "Starting the HTTP server" None]
          ++ Server.exposed (Server.serving s l) (Mux.routes (Server.router s))
          ++ EvServe l :: rest /\
      In (EvLogInfo "Stopped the HTTP server" None) rest /\
      Lifecycle.serves rest = 0%nat.
Proof.
  intros env ctx s l t Hl Hr Ht.
  rewrite (Run_started env ctx s l t Hl Hr). cbv zeta. cbn [snd].
  unfold Mux.Walk. rewrite (walkRoutes_templated _ _ _ Ht). cbn [snd].
  match goal with |- context [Server.Shutdown env ?a ?b] =>
    destruct (Shutdown_adds env a b) as (e3 & -> & Q3 & _) end.
  match goal with |- context [AdvServer.RunServer env ctx ?srv l ?d ?tw] =>
    destruct (RunServer_adds env ctx srv l d tw) as (e2 & -> & Q2);
    generalize (fst (AdvServer.RunServer env ctx srv l d tw)) end.
  intros res.
  destruct res as [e|].
  - exists (e2 ++ [EvLogError e "Failed to run the HTTP server"]
               ++ [EvLogInfo "Stopped the HTTP server" None] ++ e3).
    split; [|split].
    + rewrite <- !app_assoc. cbn. reflexivity.
    + rewrite !in_app_iff. cbn. tauto.
    + rewrite !serves_app, Q2, Q3. reflexivity.
  - exists (e2 ++ [EvLogInfo "Stopped the HTTP server" None] ++ e3).
    split; [|split].
    + rewrite <- !app_assoc. cbn. reflexivity.
    + rewrite !in_app_iff. cbn. tauto.
    + rewrite !serves_app, Q2, Q3. reflexivity.
Qed.

Lemma Run_logs_routes_before_serving_witness :
  exists rest,
    snd (Server.Run Samples.calmEnv Samples.neverDone Samples2.monitored [])
    = [EvLogInfo "Starting the HTTP server" None;
       EvLogInfo "Exposed Route: `http://localhost:8080/healthz/`" None;
       EvLogInfo "Exposed Route: `http://localhost:8080/healthz/liveness`" (Some ["GET"]);
       EvLogInfo "Exposed Route: `http://localhost:8080/healthz/readiness`" (Some ["GET"]);
       EvLogInfo "Exposed Route: `http://localhost:8080/metrics`" (Some ["GET"]);
       EvServe Samples.ln8080] ++ rest.
Proof.
  destruct (Run_logs_routes_before_serving Samples.calmEnv Samples.neverDone
              Samples2.monitored Samples.ln8080 [] eq_refl eq_refl eq_refl)
    as (rest & H & _).
  exists rest. exact H.
Defined.





(** ** Composed handler *)

Section OverrideFacts.

Import Handlers.

Lemma overrideMethod_cases r :
  overrideMethod r = r \/
  (Method r = "POST" /\
   exists om, (om = "PUT" \/ om = "PATCH" \/ om = "DELETE") /\
              overrideMethod r = withMethod r om).
Proof.
  unfold overrideMethod.
  destruct (String.eqb_spec (Method r) "POST") as [Hp|Hp]; [|left; reflexivity].
  set (om := if String.eqb (header_get HTTPMethodOverrideFormKey (Form r)) ""
             then header_get HTTPMethodOverrideHeader (Header r)
             else header_get HTTPMethodOverrideFormKey (Form r)).
  destruct (String.eqb_spec om "PUT") as [H1|H1];
    [right; split; [exact Hp|]; exists om; cbn [orb]; auto|].
  destruct (String.eqb_spec om "PATCH") as [H2|H2];
    [right; split; [exact Hp|]; exists om; cbn [orb]; auto|].
  destruct (String.eqb_spec om "DELETE") as [H3|H3];
    [right; split; [exact Hp|]; exists om; cbn [orb]; auto|].
  left. reflexivity.
Qed.


Lemma overrideMethod_options r :
  Method r = "OPTIONS" -> overrideMethod r = r.
Proof. intros Hr. unfold overrideMethod. rewrite Hr. reflexivity. Qed.


End OverrideFacts.

(** X18.  The composed handler changes nothing of a request but, possibly, its
    method, and that only for a POST, and only into PUT, PATCH or DELETE: the
    CORS layer and the wrapped handler get the headers and form as sent.  A
    second pass of the override would change nothing more.  A non-empty
    "_method" form value shadows the override header, also when it is not one
    of the three methods. *)
Theorem ConfigureHandler_rewrites_only_post :
  forall (h : Handler) (r : Request),
    let r' := Handlers.overrideMethod r in
    AdvServer.ConfigureHandler h r
    = Inspect LMethodOverride r :: Handlers.CORS AdvServer.CORSOptions h r' /\
    Header r' = Header r /\ Form r' = Form r /\
    (Method r <> "POST" -> r' = r) /\
    (Method r' <> Method r ->
     Method r' = "PUT" \/ Method r' = "PATCH" \/ Method r' = "DELETE") /\
    Handlers.overrideMethod r' = r' /\
    (let form := Handlers.header_get "_method" (Form r) in
     form <> "" -> form <> "PUT" -> form <> "PATCH" -> form <> "DELETE" -> r' = r).
Proof.
  intros h r r'. subst r'. split; [reflexivity|].
  destruct (overrideMethod_cases r) as [Heq|(Hp & om & Hom & Heq)]; rewrite Heq.
  - split; [reflexivity|]. split; [reflexivity|]. split; [reflexivity|].
    split; [intros H; contradiction|]. split; [exact Heq|]. reflexivity.
  - split; [reflexivity|]. split; [reflexivity|].
    split; [intros H; contradiction|].
    split; [intros _; cbn; exact Hom|].
    split.
    + unfold Handlers.overrideMethod. cbn [Method Handlers.withMethod].
      destruct Hom as [-> | [-> | ->]]; reflexivity.
    + intros form Hf H1 H2 H3. exfalso.
      unfold Handlers.overrideMethod in Heq. rewrite Hp in Heq. cbn [String.eqb] in Heq.
      change (String.eqb "POST" "POST") with true in Heq. cbv iota in Heq.
      change Handlers.HTTPMethodOverrideFormKey with "_method" in Heq. fold form in Heq.
      apply String.eqb_neq in Hf, H1, H2, H3. rewrite Hf, H1, H2, H3 in Heq.
      cbn [orb] in Heq.
      destruct r as [m hd fm]. cbn in Hp, Heq. inversion Heq as [Hm]. subst m.
      destruct Hom as [Ho|[Ho|Ho]]; rewrite Ho in Hm; discriminate Hm.
Qed.

Lemma ConfigureHandler_rewrites_only_post_witness :
  Handlers.overrideMethod
    (mkRequest "POST" [("X-HTTP-Method-Override", "DELETE")] [("_method", "GET")])
  = mkRequest "POST" [("X-HTTP-Method-Override", "DELETE")] [("_method", "GET")].
Proof.
  apply (ConfigureHandler_rewrites_only_post Samples.echo
           (mkRequest "POST" [("X-HTTP-Method-Override", "DELETE")] [("_method", "GET")]));
    discriminate.
Defined.



(** X20.  With the CORS options of the package, an OPTIONS request never
    reaches the wrapped handler: what the composed handler does with it is the
    same whatever handler it wraps. *)
Theorem ConfigureHandler_answers_options_itself :
  forall (h h' : Handler) (r : Request),
    Method r = "OPTIONS" ->
    AdvServer.ConfigureHandler h r = AdvServer.ConfigureHandler h' r.
Proof.
  intros h h' r Hr.
  unfold AdvServer.ConfigureHandler, Handlers.HTTPMethodOverrideHandler, Handlers.CORS.
  rewrite (overrideMethod_options r Hr). f_equal. f_equal.
  unfold Handlers.corsServe. rewrite Hr. cbn [String.eqb negb].
  change (String.eqb "OPTIONS" "OPTIONS") with true. cbn [negb].
  destruct (negb (Handlers.isOriginAllowed _ _)); reflexivity.
Qed.

Lemma ConfigureHandler_answers_options_itself_witness :
  AdvServer.ConfigureHandler Samples.echo Samples.preflight
  = AdvServer.ConfigureHandler (fun _ => [WriteHeader 500]) Samples.preflight.
Proof.
  apply (ConfigureHandler_answers_options_itself Samples.echo
           (fun _ => [WriteHeader 500]) Samples.preflight).
  reflexivity.
Defined.

(** ** Signals and cancellation *)

Section SignalFacts3.

Import SignalContext SignalFacts2.

Ltac fields2 :=
  cbn [signals notified buf closed once done watcher panicked calls waiting
       returned log] in *.

Lemma wake_fields st :
  signals (wake st) = signals st /\ notified (wake st) = notified st /\
  buf (wake st) = buf st /\ closed (wake st) = closed st /\
  once (wake st) = once st /\ done (wake st) = done st /\
  watcher (wake st) = watcher st /\ log (wake st) = log st.
Proof. unfold wake. destruct (done st) eqn:Hd; repeat split; cbn; auto. Qed.

Lemma armed_wake st : armed (wake st) = armed st.
Proof.
  destruct (wake_fields st) as (_ & _ & Hb & Hc & _ & Hd & Hw & _).
  unfold armed. rewrite Hb, Hc, Hd, Hw. reflexivity.
Qed.

(** Once armed, always armed, and every step of the goroutine brings the
    context closer to done. *)
Lemma armed_step o st :
  armed st = true ->
  armed (step o st) = true /\
  (need (step o st) + (if is_watcher_step o then 1 else 0)
   <= max (need st) (if is_watcher_step o then 1 else 0))%nat.
Proof.
  intros Ha. unfold step. rewrite armed_wake.
  destruct (need_wake (match o with
                       | Deliver sig => deliver sig st
                       | WatcherStep => watcher_step st
                       | ParentCancel => parent_cancel st
                       | Release => release st
                       end)) as [-> _].
  destruct st as [sg nt bf cl on dn wt pn ca wa re lg].
  unfold armed, need in *. fields2.
  destruct o; cbn [is_watcher_step].
  - unfold deliver, wants. fields2.
    destruct (nt && _);
      [|destruct dn, wt; split; fields2; try exact Ha; lia].
    destruct cl; [destruct dn, wt; split; fields2; try exact Ha; lia|].
    destruct (_ <? _)%nat.
    + destruct dn, wt; split; fields2; try lia; destruct bf; reflexivity.
    + destruct wt, bf, dn; split; fields2; cbn [orb] in *;
        try reflexivity; try exact Ha; try lia.
  - unfold watcher_step, set_watcher. fields2.
    destruct wt, bf, cl, dn; split; fields2; cbn [orb] in *; try discriminate Ha;
      try reflexivity; try lia; destruct bf; reflexivity.
  - unfold parent_cancel. split; fields2; [|destruct dn, wt; lia].
    destruct bf; [|reflexivity]. rewrite !orb_true_r. reflexivity.
  - unfold release, once_Do, close_ch, reset_signals. fields2.
    destruct on; split; fields2; try exact Ha; try (destruct dn, wt; lia).
    destruct bf; reflexivity.
Qed.

Lemma armed_run more : forall st,
  armed st = true ->
  (need (run more st) + count is_watcher_step more
   <= max (need st) (count is_watcher_step more))%nat.
Proof.
  induction more as [|o more IH]; intros st Ha; [cbn; lia|].
  change (run (o :: more) st) with (run more (step o st)).
  destruct (armed_step o st Ha) as [Ha' Hn].
  specialize (IH (step o st) Ha').
  unfold count in *. cbn [filter].
  destruct (is_watcher_step o); cbn [List.length] in *; lia.
Qed.

Lemma Standing_step sigs o st :
  Standing sigs st -> is_release o = false -> Standing sigs (step o st).
Proof.
  intros [Hs Hn Hc Ho] Hrel. unfold step.
  destruct (wake_fields (match o with
                         | Deliver sig => deliver sig st
                         | WatcherStep => watcher_step st
                         | ParentCancel => parent_cancel st
                         | Release => release st
                         end)) as (Hs' & Hn' & _ & Hc' & Ho' & _).
  constructor; rewrite ?Hs', ?Hn', ?Hc', ?Ho'; clear Hs' Hn' Hc' Ho';
    destruct o; try discriminate Hrel;
    unfold deliver, watcher_step, set_watcher, parent_cancel;
    repeat match goal with
           | |- context [if ?b then _ else _] => destruct b eqn:?
           | |- context [match ?x with _ => _ end] => destruct x eqn:?
           end; fields2; congruence.
Qed.

Lemma Standing_run sigs ops : forall st,
  Standing sigs st -> existsb is_release ops = false -> Standing sigs (run ops st).
Proof.
  induction ops as [|o ops IH]; intros st Hst Hrel; [exact Hst|].
  cbn [existsb] in Hrel. apply orb_false_elim in Hrel. destruct Hrel as [Ho Hops].
  change (run (o :: ops) st) with (run ops (step o st)).
  apply IH; [apply Standing_step; assumption|exact Hops].
Qed.

Lemma Standing_init parentDone sigs : Standing sigs (WithCancelOnSignal parentDone sigs).
Proof. constructor; reflexivity. Qed.

(** A relayed signal arms the goroutine when the channel has room for it or
    holds one already. *)
Lemma deliver_arms sigs sig st :
  Standing sigs st -> sigs <> [] -> In sig sigs ->
  armed (step (Deliver sig) st) = true.
Proof.
  intros [Hs Hn Hc Ho] Hne Hin.
  destruct sigs as [|s0 sg]; [contradiction|].
  unfold step. rewrite armed_wake.
  unfold deliver, wants. rewrite Hn, Hs, Hc.
  assert (Hw : existsb (Nat.eqb sig) (s0 :: sg) = true).
  { apply existsb_exists. exists sig. split; [exact Hin|apply Nat.eqb_refl]. }
  rewrite Hw. cbn [andb].
  destruct (List.length (buf st) <? List.length (s0 :: sg))%nat eqn:Hlt.
  - unfold armed. fields2. destruct (buf st); reflexivity.
  - apply Nat.ltb_ge in Hlt.
    assert (Hbuf : buf st <> []).
    { intros Hb. rewrite Hb in Hlt. cbn in Hlt. lia. }
    destruct (buf st) as [|b bs] eqn:Hb; [contradiction|].
    destruct (watcher st); unfold armed; rewrite Hb; reflexivity.
Qed.

Lemma unwanted_deliver sigs sig st :
  signals st = sigs -> is_wanted_delivery sigs (Deliver sig) = false ->
  deliver sig st = st.
Proof.
  intros Hs H. unfold deliver.
  assert (Hw : wants st sig = false).
  { unfold wants. rewrite Hs. destruct sigs; [discriminate H|exact H]. }
  rewrite Hw, andb_false_r. reflexivity.
Qed.

Lemma no_spurious_step sigs o st :
  signals st = sigs -> buf st = [] -> closed st = false -> done st = false ->
  (watcher st = Spawned \/ watcher st = Receiving) ->
  is_release o = false -> is_parent_cancel o = false ->
  is_wanted_delivery sigs o = false ->
  signals (step o st) = sigs /\ buf (step o st) = [] /\ closed (step o st) = false /\
  done (step o st) = false /\
  (watcher (step o st) = Spawned \/ watcher (step o st) = Receiving).
Proof.
  intros Hs Hb Hc Hd Hw H1 H2 H3. unfold step.
  destruct (wake_fields (match o with
                         | Deliver sig => deliver sig st
                         | WatcherStep => watcher_step st
                         | ParentCancel => parent_cancel st
                         | Release => release st
                         end)) as (-> & _ & -> & -> & _ & -> & -> & _).
  destruct o; try discriminate H1; try discriminate H2.
  - rewrite (unwanted_deliver sigs sig st Hs H3). repeat split; auto.
  - unfold watcher_step, set_watcher. rewrite Hb, Hc.
    destruct Hw as [-> | ->]; fields2; repeat split; auto.
Qed.

Lemma cancel_count_step o st :
  count is_cancel (log st) = (if match watcher st with Finished => true | _ => false end
                              then 1 else 0)%nat ->
  count is_cancel (log (step o st))
  = (if match watcher (step o st) with Finished => true | _ => false end
     then 1 else 0)%nat.
Proof.
  intros H. unfold step.
  destruct (wake_fields (match o with
                         | Deliver sig => deliver sig st
                         | WatcherStep => watcher_step st
                         | ParentCancel => parent_cancel st
                         | Release => release st
                         end)) as (_ & _ & _ & _ & _ & _ & -> & ->).
  destruct st as [sg nt bf cl on dn wt pn ca wa re lg]. fields2.
  destruct o.
  - unfold deliver, wants. fields2.
    destruct (nt && _); [|exact H].
    destruct cl; [exact H|].
    destruct (_ <? _)%nat; [exact H|].
    destruct wt; try exact H. destruct bf; exact H.
  - unfold watcher_step, set_watcher. fields2.
    destruct wt, bf, cl; fields2; rewrite ?count_snoc; cbn [is_cancel];
      try exact H; rewrite H; reflexivity.
  - exact H.
  - unfold release, once_Do, close_ch, reset_signals. fields2.
    destruct on; fields2; rewrite ?count_snoc; cbn [is_cancel]; rewrite ?Nat.add_0_r;
      exact H.
Qed.

Lemma cancel_count_run ops : forall st,
  count is_cancel (log st) = (if match watcher st with Finished => true | _ => false end
                              then 1 else 0)%nat ->
  count is_cancel (log (run ops st))
  = (if match watcher (run ops st) with Finished => true | _ => false end
     then 1 else 0)%nat.
Proof.
  induction ops as [|o ops IH]; intros st H; [exact H|].
  apply IH, cancel_count_step, H.
Qed.

Lemma done_step o st : done st = true -> done (step o st) = true.
Proof.
  intros Hd. unfold step.
  destruct (wake_fields (match o with
                         | Deliver sig => deliver sig st
                         | WatcherStep => watcher_step st
                         | ParentCancel => parent_cancel st
                         | Release => release st
                         end)) as (_ & _ & _ & _ & _ & -> & _).
  destruct st as [sg nt bf cl on dn wt pn ca wa re lg]. fields2. subst dn.
  destruct o.
  - unfold deliver, wants. fields2.
    destruct (nt && _); [|reflexivity].
    destruct cl; [reflexivity|].
    destruct (_ <? _)%nat; [reflexivity|].
    destruct wt; try reflexivity. destruct bf; reflexivity.
  - unfold watcher_step, set_watcher. fields2.
    destruct wt, bf, cl; reflexivity.
  - reflexivity.
  - unfold release, once_Do, close_ch, reset_signals. fields2.
    destruct on; reflexivity.
Qed.

Lemma done_run ops : forall st, done st = true -> done (run ops st) = true.
Proof.
  induction ops as [|o ops IH]; intros st Hd; [exact Hd|].
  apply IH, done_step, Hd.
Qed.

End SignalFacts3.

(** X21.  A signal the registration asks for cancels the context: delivered
    before any release call, to a registration that names at least one signal,
    it is held for the goroutine even if the goroutine has not run yet, and
    two steps of the goroutine later the context is done, whatever else
    happens in between. *)
Theorem signal_cancels_context :
  forall parentDone sigs sig before after,
    In sig sigs ->
    existsb SignalContext.is_release before = false ->
    (2 <= SignalContext.count SignalContext.is_watcher_step after)%nat ->
    SignalContext.done
      (SignalContext.run (before ++ SignalContext.Deliver sig :: after)
                         (SignalContext.WithCancelOnSignal parentDone sigs))
    = true.
Proof.
  intros parentDone sigs sig before after Hin Hrel Hws.
  assert (Hne : sigs <> []) by (intros ->; contradiction).
  rewrite run_app.
  set (st := SignalContext.run before _).
  assert (Hst : SignalFacts2.Standing sigs st)
    by (apply Standing_run; [apply Standing_init|exact Hrel]).
  assert (Hinv : SignalContext.Inv st) by (apply Inv_run, Inv_init).
  change (SignalContext.run (SignalContext.Deliver sig :: after) st)
    with (SignalContext.run after (SignalContext.step (SignalContext.Deliver sig) st)).
  pose proof (deliver_arms sigs sig st Hst Hne Hin) as Harmed.
  pose proof (armed_run after _ Harmed) as Hneed.
  pose proof (need_le_2 (SignalContext.step (SignalContext.Deliver sig) st)).
  apply need_0_done; [apply Inv_run, Inv_step, Hinv|lia].
Qed.

Lemma signal_cancels_context_witness :
  SignalContext.done
    (SignalContext.run
       ([] ++ SignalContext.Deliver SignalContext.SIGTERM
           :: [SignalContext.WatcherStep; SignalContext.WatcherStep])
       (SignalContext.WithCancelOnSignal false
          [SignalContext.Interrupt; SignalContext.SIGTERM]))
  = true.
Proof.
  apply (signal_cancels_context false
           [SignalContext.Interrupt; SignalContext.SIGTERM] SignalContext.SIGTERM []
           [SignalContext.WatcherStep; SignalContext.WatcherStep]).
  - cbn. tauto.
  - reflexivity.
  - cbn. lia.
Defined.

(** X22.  Called with no signal at all, [WithCancelOnSignal] makes a channel
    without buffer: a signal that arrives before the goroutine is parked in its
    receive is dropped, and the system goes on as if it had never come. *)
Theorem signal_before_receive_is_lost :
  forall st sig ops,
    SignalContext.signals st = [] ->
    SignalContext.closed st = false ->
    SignalContext.watcher st <> SignalContext.Receiving ->
    (SignalContext.done st = true -> SignalContext.waiting st = 0%nat) ->
    SignalContext.run (SignalContext.Deliver sig :: ops) st = SignalContext.run ops st.
Proof.
  intros st sig ops Hs Hc Hw Hwait.
  change (SignalContext.run (SignalContext.Deliver sig :: ops) st)
    with (SignalContext.run ops (SignalContext.step (SignalContext.Deliver sig) st)).
  f_equal.
  destruct st as [sg nt bf cl on dn wt pn ca wa re lg].
  cbn in Hs, Hc, Hw, Hwait. subst sg cl.
  unfold SignalContext.step, SignalContext.deliver, SignalContext.wants,
    SignalContext.wake.
  cbn [SignalContext.signals SignalContext.notified SignalContext.buf
       SignalContext.closed SignalContext.watcher List.length Nat.ltb Nat.leb].
  rewrite andb_true_r.
  destruct nt, wt, dn; try contradiction;
    cbn [SignalContext.signals SignalContext.notified SignalContext.buf
         SignalContext.closed SignalContext.once SignalContext.done
         SignalContext.watcher SignalContext.panicked SignalContext.calls
         SignalContext.waiting SignalContext.returned SignalContext.log];
    rewrite ?(Hwait eq_refl), ?Nat.add_0_r; reflexivity.
Qed.

Lemma signal_before_receive_is_lost_witness :
  SignalContext.run
    [SignalContext.Deliver SignalContext.SIGTERM;
     SignalContext.WatcherStep; SignalContext.WatcherStep]
    (SignalContext.WithCancelOnSignal false [])
  = SignalContext.run
      [SignalContext.WatcherStep; SignalContext.WatcherStep]
      (SignalContext.WithCancelOnSignal false []).
Proof.
  apply (signal_before_receive_is_lost (SignalContext.WithCancelOnSignal false [])
           SignalContext.SIGTERM
           [SignalContext.WatcherStep; SignalContext.WatcherStep]);
    try reflexivity.
  discriminate.
Defined.

(** X23.  The context is not cancelled without cause: as long as the parent is
    not cancelled, no release call is made and no signal the registration asks
    for is delivered, the child context is not done and the goroutine is still
    before or in its receive, whatever other signals arrive. *)
Theorem no_cancellation_without_cause :
  forall sigs ops,
    existsb SignalContext.is_release ops = false ->
    existsb SignalFacts2.is_parent_cancel ops = false ->
    existsb (SignalFacts2.is_wanted_delivery sigs) ops = false ->
    let st := SignalContext.run ops (SignalContext.WithCancelOnSignal false sigs) in
    SignalContext.done st = false /\
    SignalContext.log st = [SignalContext.SigNotify] /\
    (SignalContext.watcher st = SignalContext.Spawned \/
     SignalContext.watcher st = SignalContext.Receiving).
Proof.
  intros sigs ops H1 H2 H3 st. subst st.
  set (st0 := SignalContext.WithCancelOnSignal false sigs).
  assert (Hgen : forall st,
             SignalContext.signals st = sigs -> SignalContext.buf st = [] ->
             SignalContext.closed st = false -> SignalContext.done st = false ->
             (SignalContext.watcher st = SignalContext.Spawned \/
              SignalContext.watcher st = SignalContext.Receiving) ->
             SignalContext.log st = [SignalContext.SigNotify] ->
             SignalContext.done (SignalContext.run ops st) = false /\
             SignalContext.log (SignalContext.run ops st) = [SignalContext.SigNotify] /\
             (SignalContext.watcher (SignalContext.run ops st) = SignalContext.Spawned \/
              SignalContext.watcher (SignalContext.run ops st) = SignalContext.Receiving)).
  { clear st0. induction ops as [|o ops IH]; intros st Hs Hb Hc Hd Hw Hl; [auto|].
    cbn [existsb] in H1, H2, H3.
    apply orb_false_elim in H1. destruct H1 as [Ho1 H1].
    apply orb_false_elim in H2. destruct H2 as [Ho2 H2].
    apply orb_false_elim in H3. destruct H3 as [Ho3 H3].
    change (SignalContext.run (o :: ops) st)
      with (SignalContext.run ops (SignalContext.step o st)).
    destruct (no_spurious_step sigs o st Hs Hb Hc Hd Hw Ho1 Ho2 Ho3)
      as (Hs' & Hb' & Hc' & Hd' & Hw').
    apply IH; auto.
    clear - Hl Hb Hc Hw Ho1 Ho2 Ho3 Hs.
    unfold SignalContext.step.
    destruct (wake_fields (match o with
                           | SignalContext.Deliver sig => SignalContext.deliver sig st
                           | SignalContext.WatcherStep => SignalContext.watcher_step st
                           | SignalContext.ParentCancel => SignalContext.parent_cancel st
                           | SignalContext.Release => SignalContext.release st
                           end)) as (_ & _ & _ & _ & _ & _ & _ & ->).
    destruct o; try discriminate Ho1; try discriminate Ho2.
    - rewrite (unwanted_deliver sigs sig st Hs Ho3). exact Hl.
    - unfold SignalContext.watcher_step, SignalContext.set_watcher. rewrite Hb, Hc.
      destruct Hw as [-> | ->]; exact Hl. }
  apply Hgen; try reflexivity. left. reflexivity.
Qed.

Lemma no_cancellation_without_cause_witness :
  SignalContext.done
    (SignalContext.run
       [SignalContext.Deliver 1; SignalContext.WatcherStep; SignalContext.Deliver 1]
       (SignalContext.WithCancelOnSignal false
          [SignalContext.Interrupt; SignalContext.SIGTERM]))
  = false.
Proof.
  apply (no_cancellation_without_cause
           [SignalContext.Interrupt; SignalContext.SIGTERM]
           [SignalContext.Deliver 1; SignalContext.WatcherStep; SignalContext.Deliver 1]);
    reflexivity.
Defined.

(** X24.  The goroutine calls [cancel] at most once, and a context that is
    done stays done: no step of the system takes a cancellation back. *)
Theorem cancel_once_and_for_all :
  forall parentDone sigs ops more,
    let st := SignalContext.run ops (SignalContext.WithCancelOnSignal parentDone sigs) in
    (SignalContext.count SignalFacts2.is_cancel (SignalContext.log st) <= 1)%nat /\
    (SignalContext.done st = true ->
     SignalContext.done (SignalContext.run more st) = true).
Proof.
  intros parentDone sigs ops more st. split.
  - assert (H : SignalContext.count SignalFacts2.is_cancel (SignalContext.log st)
                = (if match SignalContext.watcher st with
                      | SignalContext.Finished => true
                      | _ => false
                      end then 1 else 0)%nat)
      by (apply cancel_count_run; reflexivity).
    rewrite H. destruct (SignalContext.watcher st); lia.
  - apply done_run.
Qed.

(** ** Construction *)

(** X25.  [setOptionsDefaults] touches nothing but the graceful timeout, never
    leaves it zero, does nothing more when applied again, and leaves a nil
    pointer alone. *)
Theorem setOptionsDefaults_only_timeout :
  forall (o : Options.Options),
    Options.setOptionsDefaults None = None /\
    exists o',
      Options.setOptionsDefaults (Some o) = Some o' /\
      Options.EnableProfiling o' = Options.EnableProfiling o /\
      Options.EnableTracing o' = Options.EnableTracing o /\
      Options.EnableReplication o' = Options.EnableReplication o /\
      Options.GracefulTimeout o' <> 0%Z /\
      Options.setOptionsDefaults (Some o') = Some o'.
Proof.
  intros o. split; [reflexivity|].
  unfold Options.setOptionsDefaults.
  destruct (Z.eqb_spec (Options.GracefulTimeout o) 0) as [Hz|Hz].
  - eexists. split; [reflexivity|]. cbn. repeat split. discriminate.
  - exists o. split; [reflexivity|]. repeat split; auto.
    apply Z.eqb_neq in Hz. rewrite Hz. reflexivity.
Qed.

(** X26.  [NewBaseServer] makes exactly one listen attempt, on the endpoint it
    was given.  When the attempt fails it returns that error and no server;
    when it succeeds the server holds the listener, has no running server and
    no route, and remembers the endpoint. *)
Theorem NewBaseServer_one_attempt :
  forall env ep o t,
    let r := Server.NewBaseServer env ep o t in
    exists attempt answer,
      snd r = t ++ [attempt] /\
      ((attempt = EvListenPipe ep /\ answer = ListenPipe env ep (snd r)) \/
       (attempt = EvListenTCP ep /\ answer = Listen_tcp env ep (snd r))) /\
      match answer with
      | inr err => fst r = inr err
      | inl l =>
          exists s, fst r = inl s /\
                    Server.listener s = Some l /\
                    Server.runningServer s = None /\
                    Mux.routes (Server.router s) = [] /\
                    Server.endpoint s = ep
      end.
Proof.
  intros env ep o t r. subst r.
  unfold Server.NewBaseServer, AdvServer.NewListener, AdvServer.parseListener.
  destruct (String.prefix "\\" ep); run_go.
  - exists (EvListenPipe ep), (ListenPipe env ep (t ++ [EvListenPipe ep])).
    destruct (ListenPipe env ep (t ++ [EvListenPipe ep])) as [l|e] eqn:Ha; cbn [fst snd].
    + split; [reflexivity|]. split; [left; rewrite Ha; auto|].
      eexists. repeat split.
    + split; [reflexivity|]. split; [left; rewrite Ha; auto|]. reflexivity.
  - exists (EvListenTCP ep), (Listen_tcp env ep (t ++ [EvListenTCP ep])).
    destruct (Listen_tcp env ep (t ++ [EvListenTCP ep])) as [l|e] eqn:Ha; cbn [fst snd].
    + split; [reflexivity|]. split; [right; rewrite Ha; auto|].
      eexists. repeat split.
    + split; [reflexivity|]. split; [right; rewrite Ha; auto|]. reflexivity.
Qed.



Lemma cancel_once_and_for_all_witness :
  SignalContext.done
    (SignalContext.run
       [SignalContext.Deliver SignalContext.SIGTERM; SignalContext.Release]
       (SignalContext.run [SignalContext.ParentCancel]
          (SignalContext.WithCancelOnTermination false)))
  = true.
Proof.
  apply (proj2 (cancel_once_and_for_all false
                  [SignalContext.Interrupt; SignalContext.SIGTERM]
                  [SignalContext.ParentCancel]
                  [SignalContext.Deliver SignalContext.SIGTERM; SignalContext.Release])).
  reflexivity.
Defined.
